(** * Lab Test Analyzer: the text-to-structured-data pipeline of [main.py]

    A shallow embedding of the program's functions and of the library calls
    they rest on ([float], [str.split], [re.search]), followed by the
    properties of the specification.

    Conventions.
    - A Python [str] is a [string]: a sequence of code points below 256
      (Latin-1).  The character classes below are the Unicode ones restricted
      to that range.
    - A Python [float] is a binary64 number, [spec_float] with 53 bits of
      precision and exponent bound 1024.
    - An exception is a value of [exn]; code that may raise returns a
      [result]. *)

From Stdlib Require Import ZArith NArith List String Ascii Bool Lia.
From Stdlib Require Import SpecFloat.
Import ListNotations.

Local Open Scope string_scope.
Local Open Scope Z_scope.

(** ** Exceptions and results *)

Inductive exn : Type :=
| ValueError
| AttributeError
| TypeError
| KeyError
| IndexError
| ReError.

Inductive result (A : Type) : Type :=
| Ok (a : A)
| Raise (e : exn).

Arguments Ok {A} a.
Arguments Raise {A} e.

Definition bind {A B : Type} (r : result A) (f : A -> result B) : result B :=
  match r with
  | Ok a => f a
  | Raise e => Raise e
  end.

Notation "x <- r ;; k" := (bind r (fun x => k))
  (at level 61, r at next level, right associativity).

(** ** Characters *)

Definition code (c : ascii) : Z := Z.of_N (N_of_ascii c).

Definition between (lo hi : Z) (c : ascii) : bool :=
  (lo <=? code c) && (code c <=? hi).

Definition is_digit (c : ascii) : bool := between 48 57 c.

Definition digit_val (c : ascii) : Z := code c - 48.

(** [Py_ISSPACE]: the C-locale white space of CPython's number parser. *)
Definition Py_ISSPACE (c : ascii) : bool :=
  between 9 13 c || (code c =? 32).

(** [Py_UNICODE_ISSPACE] below 256: what [str.isspace] and the regex class
    [\s] accept. *)
Definition Py_UNICODE_ISSPACE (c : ascii) : bool :=
  between 9 13 c || between 28 32 c || (code c =? 133) || (code c =? 160).

(** [Py_TOLOWER] on the ASCII letters, identity elsewhere. *)
Definition to_lower (c : ascii) : ascii :=
  if between 65 90 c then ascii_of_N (N_of_ascii c + 32) else c.

(** ** Strings *)

Fixpoint span_digits (s : string) : string * string :=
  match s with
  | String c s' =>
      if is_digit c
      then let '(d, r) := span_digits s' in (String c d, r)
      else (EmptyString, s)
  | EmptyString => (EmptyString, EmptyString)
  end.

Fixpoint lstrip (s : string) : string :=
  match s with
  | String c s' => if Py_ISSPACE c then lstrip s' else s
  | EmptyString => EmptyString
  end.

(** Drops trailing white space but never the first character, as the loop
    [while (s < last - 1 && Py_ISSPACE(last[-1]))] does. *)
Fixpoint rstrip_tail (s : string) : string :=
  match s with
  | String c s' =>
      match rstrip_tail s' with
      | EmptyString => if Py_ISSPACE c then EmptyString else String c EmptyString
      | r => String c r
      end
  | EmptyString => EmptyString
  end.

Definition rstrip (s : string) : string :=
  match s with
  | String c s' => String c (rstrip_tail s')
  | EmptyString => EmptyString
  end.

Fixpoint all_chars (p : ascii -> bool) (s : string) : bool :=
  match s with
  | String c s' => p c && all_chars p s'
  | EmptyString => true
  end.

Fixpoint mem_char (a : ascii) (s : string) : bool :=
  match s with
  | String c s' => Ascii.eqb a c || mem_char a s'
  | EmptyString => false
  end.

(** [case_insensitive_match(s, t)] of CPython: [t] is lower case; the rest of
    [s] after [t] when [s] starts with [t] up to ASCII case. *)
Fixpoint case_insensitive_match (s t : string) : option string :=
  match t with
  | EmptyString => Some s
  | String ct t' =>
      match s with
      | String cs s' =>
          if Ascii.eqb (to_lower cs) ct then case_insensitive_match s' t' else None
      | EmptyString => None
      end
  end.

(** *** [str.split(sep)] for a one-character separator: every occurrence of
    the separator cuts; the result is never empty. *)
Fixpoint split (sep : ascii) (s : string) : list string :=
  match s with
  | EmptyString => [EmptyString]
  | String c s' =>
      if Ascii.eqb c sep then EmptyString :: split sep s'
      else match split sep s' with
           | p :: ps => String c p :: ps
           | [] => [String c EmptyString]
           end
  end.

(** ** [float(str)] *)

Definition prec : Z := 53.
Definition emax : Z := 1024.
Definition pyfloat : Type := spec_float.

Definition flt (x y : pyfloat) : bool := SFltb x y.
Definition fle (x y : pyfloat) : bool := SFleb x y.

Fixpoint digits_value (acc : Z) (s : string) : Z :=
  match s with
  | String c s' => digits_value (10 * acc + digit_val c) s'
  | EmptyString => acc
  end.

(** The binary64 number nearest to [m * 10 ^ e10] (ties to even), with
    overflow to infinity and underflow to zero: what [_Py_dg_strtod]
    returns for the decimal digits [m] and decimal exponent [e10]. *)
Definition decimal_to_double (sign : bool) (m : Z) (e10 : Z) : pyfloat :=
  match m with
  | Zpos p =>
      if 0 <=? e10
      then binary_round prec emax sign (p * Z.to_pos (10 ^ e10)) 0
      else
        let '(q, e, l) := SFdiv_core_binary prec emax (Zpos p) 0 (10 ^ (- e10)) 0 in
        binary_round_aux prec emax sign q e l
  | _ => S754_zero sign
  end.

Definition parse_sign (s : string) : bool * string :=
  match s with
  | String "-" s' => (true, s')
  | String "+" s' => (false, s')
  | _ => (false, s)
  end.

Definition MAX_ABS_EXP : Z := 1100000000.

Fixpoint skip_zeros (s : string) : string :=
  match s with
  | String "0" s' => skip_zeros s'
  | _ => s
  end.

(** The exponent part: [e] or [E], an optional sign, at least one digit.
    Without a digit nothing is consumed. *)
Definition parse_exponent (s : string) : Z * string :=
  match s with
  | String c t =>
      if Ascii.eqb (to_lower c) "e" then
        let '(neg, t1) := parse_sign t in
        let '(ds, t2) := span_digits t1 in
        match ds with
        | EmptyString => (0, s)
        | _ =>
            let sig := skip_zeros ds in
            let v := digits_value 0 sig in
            let a := if (9 <? Z.of_nat (String.length sig)) || (MAX_ABS_EXP <? v)
                     then MAX_ABS_EXP else v in
            (if neg then - a else a, t2)
        end
      else (0, s)
  | EmptyString => (0, s)
  end.

(** [_Py_dg_strtod]: [None] when no number starts the string, else the value
    and the unread rest. *)
Definition strtod (s : string) : option (pyfloat * string) :=
  let '(neg, s0) := parse_sign s in
  let '(ip, s1) := span_digits s0 in
  let '(fp, s2) :=
    match s1 with
    | String "." t => span_digits t
    | _ => (EmptyString, s1)
    end in
  match ip ++ fp with
  | EmptyString => None
  | ds =>
      let '(e, s3) := parse_exponent s2 in
      Some (decimal_to_double neg (digits_value 0 ds)
              (e - Z.of_nat (String.length fp)), s3)
  end.

(** [_Py_parse_inf_or_nan] *)
Definition parse_inf_or_nan (s : string) : option (pyfloat * string) :=
  let '(neg, s0) := parse_sign s in
  match case_insensitive_match s0 "inf" with
  | Some r =>
      match case_insensitive_match r "inity" with
      | Some r' => Some (S754_infinity neg, r')
      | None => Some (S754_infinity neg, r)
      end
  | None =>
      match case_insensitive_match s0 "nan" with
      | Some r => Some (S754_nan, r)
      | None => None
      end
  end.

Definition PyOS_string_to_double (s : string) : option (pyfloat * string) :=
  match strtod s with
  | Some r => Some r
  | None => parse_inf_or_nan s
  end.

Definition float_from_string_inner (s : string) : result pyfloat :=
  match lstrip s with
  | EmptyString => Raise ValueError
  | s1 =>
      match PyOS_string_to_double (rstrip s1) with
      | Some (x, EmptyString) => Ok x
      | _ => Raise ValueError
      end
  end.

(** Underscores may only stand between two digits; they are removed. *)
Fixpoint strip_underscores (prev : ascii) (s : string) : option string :=
  match s with
  | EmptyString => if Ascii.eqb prev "_" then None else Some EmptyString
  | String c s' =>
      if Ascii.eqb c "_" then
        if is_digit prev then strip_underscores c s' else None
      else if Ascii.eqb c zero then None
      else if Ascii.eqb prev "_" && negb (is_digit c) then None
      else option_map (String c) (strip_underscores c s')
  end.

Definition string_to_number_with_underscores (s : string) : result pyfloat :=
  if mem_char "_" s then
    match strip_underscores zero s with
    | Some dup => float_from_string_inner dup
    | None => Raise ValueError
    end
  else float_from_string_inner s.

(** [_PyUnicode_TransformDecimalAndSpaceToASCII]: an ASCII string is kept;
    otherwise white space beyond ASCII becomes a blank and the first other
    character from 127 on becomes [?] and ends the string. *)
Fixpoint transform_chars (s : string) : string :=
  match s with
  | EmptyString => EmptyString
  | String c s' =>
      if code c <? 127 then String c (transform_chars s')
      else if Py_UNICODE_ISSPACE c then String " " (transform_chars s')
      else String "?" EmptyString
  end.

Definition transform_decimal_and_space (s : string) : string :=
  if all_chars (fun c => code c <? 128) s then s else transform_chars s.

Definition float_of_str (s : string) : result pyfloat :=
  string_to_number_with_underscores (transform_decimal_and_space s).

(** [float(x)] for [x] a [str] or [None]. *)
Definition float (x : option string) : result pyfloat :=
  match x with
  | Some s => float_of_str s
  | None => Raise TypeError
  end.

(** ** [re.search] for the pattern language of the catalog

    Literals, the classes [\s] and [\d], escaped punctuation, sets such as
    [[:=]], the greedy quantifiers [*], [+] and [?] on a one-character item,
    capturing groups and alternation.  A pattern outside this language is
    refused by [re_parse]. *)

#[warnings="-register-all"]
Inductive charset : Type :=
| CLit (c : ascii)
| CDigit
| CSpace
| CSet (members : list charset).

Inductive regex : Type :=
| REmpty
| RChar (cs : charset)
| RStar (cs : charset)
| RPlus (cs : charset)
| ROpt (cs : charset)
| RCat (r1 r2 : regex)
| RAlt (r1 r2 : regex)
| RGroup (n : nat) (r : regex).

(** [Py_UNICODE_TOLOWER] below 256. *)
Definition unicode_lower (c : ascii) : ascii :=
  if between 65 90 c || (between 192 222 c && negb (code c =? 215))
  then ascii_of_N (N_of_ascii c + 32) else c.

(** Does the character belong to the set?  [ic] is [re.IGNORECASE]. *)
Fixpoint cs_mem (ic : bool) (cs : charset) (c : ascii) : bool :=
  match cs with
  | CLit p =>
      if ic then Ascii.eqb (unicode_lower c) (unicode_lower p) else Ascii.eqb c p
  | CDigit => is_digit c
  | CSpace => Py_UNICODE_ISSPACE c
  | CSet members => existsb (fun m => cs_mem ic m c) members
  end.

(** *** Parsing a pattern *)

Record frame : Type := {
  f_group : nat;              (* number of the group being read *)
  f_alts : list regex;        (* finished alternatives, last first *)
  f_items : list regex        (* items of the current alternative, last first *)
}.

Inductive pmode : Type :=
| MNormal
| MEscape
| MSet (acc : list charset) (first : bool)
| MSetEscape (acc : list charset).

Record pstate : Type := {
  p_stack : list frame;
  p_cur : frame;
  p_next : nat;               (* number of the next group to open *)
  p_mode : pmode
}.

Definition seq_of (items : list regex) : regex :=
  fold_left (fun acc i => RCat i acc) items REmpty.

Definition close_frame (f : frame) : regex :=
  fold_left (fun acc a => RAlt a acc) (f_alts f) (seq_of (f_items f)).

Definition push_item (st : pstate) (i : regex) : pstate :=
  let f := p_cur st in
  {| p_stack := p_stack st;
     p_cur := {| f_group := f_group f; f_alts := f_alts f;
                 f_items := i :: f_items f |};
     p_next := p_next st;
     p_mode := MNormal |}.

Definition quantify (st : pstate) (q : charset -> regex) : option pstate :=
  let f := p_cur st in
  match f_items f with
  | RChar cs :: items =>
      Some {| p_stack := p_stack st;
              p_cur := {| f_group := f_group f; f_alts := f_alts f;
                          f_items := q cs :: items |};
              p_next := p_next st;
              p_mode := MNormal |}
  | _ => None
  end.

Definition is_alnum (c : ascii) : bool :=
  is_digit c || between 65 90 c || between 97 122 c.

(** An escape: [\s], [\d], or an escaped punctuation character. *)
Definition escape_class (c : ascii) : option charset :=
  if Ascii.eqb c "s" then Some CSpace
  else if Ascii.eqb c "d" then Some CDigit
  else if is_alnum c || (127 <=? code c) || (code c <? 33) then None
  else Some (CLit c).

Definition with_mode (st : pstate) (m : pmode) : pstate :=
  {| p_stack := p_stack st; p_cur := p_cur st; p_next := p_next st; p_mode := m |}.

Definition pstep (st : pstate) (c : ascii) : option pstate :=
  match p_mode st with
  | MEscape =>
      match escape_class c with
      | Some cs => Some (push_item st (RChar cs))
      | None => None
      end
  | MSetEscape acc =>
      match escape_class c with
      | Some cs => Some (with_mode st (MSet (cs :: acc) false))
      | None => None
      end
  | MSet acc first =>
      if Ascii.eqb c "]" then
        if first then None else Some (push_item st (RChar (CSet (rev acc))))
      else if Ascii.eqb c "\" then Some (with_mode st (MSetEscape acc))
      else if Ascii.eqb c "^" || Ascii.eqb c "-" || Ascii.eqb c "[" then None
      else Some (with_mode st (MSet (CLit c :: acc) false))
  | MNormal =>
      if Ascii.eqb c "\" then Some (with_mode st MEscape)
      else if Ascii.eqb c "[" then Some (with_mode st (MSet [] true))
      else if Ascii.eqb c "(" then
        Some {| p_stack := p_cur st :: p_stack st;
                p_cur := {| f_group := p_next st; f_alts := []; f_items := [] |};
                p_next := S (p_next st);
                p_mode := MNormal |}
      else if Ascii.eqb c ")" then
        match p_stack st with
        | parent :: stack =>
            Some {| p_stack := stack;
                    p_cur := {| f_group := f_group parent; f_alts := f_alts parent;
                                f_items := RGroup (f_group (p_cur st)) (close_frame (p_cur st))
                                             :: f_items parent |};
                    p_next := p_next st;
                    p_mode := MNormal |}
        | [] => None
        end
      else if Ascii.eqb c "|" then
        let f := p_cur st in
        Some {| p_stack := p_stack st;
                p_cur := {| f_group := f_group f;
                            f_alts := seq_of (f_items f) :: f_alts f;
                            f_items := [] |};
                p_next := p_next st;
                p_mode := MNormal |}
      else if Ascii.eqb c "*" then quantify st RStar
      else if Ascii.eqb c "+" then quantify st RPlus
      else if Ascii.eqb c "?" then
        match p_cur st with
        | {| f_alts := []; f_items := [] |} =>
            (* [(?...)] extensions are outside the language *)
            None
        | _ => quantify st ROpt
        end
      else if Ascii.eqb c "." || Ascii.eqb c "^" || Ascii.eqb c "$"
              || Ascii.eqb c "{" || Ascii.eqb c "}" || Ascii.eqb c "]" then None
      else Some (push_item st (RChar (CLit c)))
  end.

Fixpoint prun (st : pstate) (s : string) : option pstate :=
  match s with
  | EmptyString => Some st
  | String c s' =>
      match pstep st c with
      | Some st' => prun st' s'
      | None => None
      end
  end.

Record pattern : Type := {
  pat_regex : regex;
  pat_groups : nat           (* number of capturing groups *)
}.

Definition re_parse (p : string) : option pattern :=
  let init := {| p_stack := [];
                 p_cur := {| f_group := O; f_alts := []; f_items := [] |};
                 p_next := 1%nat;
                 p_mode := MNormal |} in
  match prun init p with
  | Some {| p_stack := []; p_cur := f; p_next := n; p_mode := MNormal |} =>
      Some {| pat_regex := close_frame f; pat_groups := Nat.pred n |}
  | _ => None
  end.

(** *** Matching: backtracking, leftmost alternative first, quantifiers
    greedy *)

Definition captures : Type := list (nat * string).

(** The text between the position [s] and the later position [s']. *)
Definition consumed (s s' : string) : string :=
  substring 0 (String.length s - String.length s') s.

Section Match.
Context {A : Type}.
Variable ic : bool.

Fixpoint star_match (cs : charset) (s : string) (k : string -> option A)
  : option A :=
  match s with
  | String c s' =>
      if cs_mem ic cs c then
        match star_match cs s' k with
        | Some x => Some x
        | None => k s
        end
      else k s
  | EmptyString => k s
  end.

Fixpoint rmatch (r : regex) (s : string) (caps : captures)
         (k : string -> captures -> option A) : option A :=
  match r with
  | REmpty => k s caps
  | RChar cs =>
      match s with
      | String c s' => if cs_mem ic cs c then k s' caps else None
      | EmptyString => None
      end
  | RStar cs => star_match cs s (fun s' => k s' caps)
  | RPlus cs =>
      match s with
      | String c s' =>
          if cs_mem ic cs c then star_match cs s' (fun s'' => k s'' caps) else None
      | EmptyString => None
      end
  | ROpt cs =>
      match s with
      | String c s' =>
          if cs_mem ic cs c then
            match k s' caps with
            | Some x => Some x
            | None => k s caps
            end
          else k s caps
      | EmptyString => k s caps
      end
  | RCat r1 r2 => rmatch r1 s caps (fun s' caps' => rmatch r2 s' caps' k)
  | RAlt r1 r2 =>
      match rmatch r1 s caps k with
      | Some x => Some x
      | None => rmatch r2 s caps k
      end
  | RGroup n r1 =>
      rmatch r1 s caps (fun s' caps' => k s' ((n, consumed s s') :: caps'))
  end.
End Match.

Record match_obj : Type := {
  m_start : nat;
  m_end : nat;
  m_caps : captures;
  m_ngroups : nat
}.

(** The match starting at the current position, if any. *)
Definition match_here (ic : bool) (p : pattern) (pos : nat) (s : string)
  : option match_obj :=
  rmatch ic (pat_regex p) s []
    (fun s' caps =>
       Some {| m_start := pos;
               m_end := pos + (String.length s - String.length s');
               m_caps := caps;
               m_ngroups := pat_groups p |}).

(** The first position, from the left, at which the pattern matches. *)
Fixpoint search_from (ic : bool) (p : pattern) (pos : nat) (s : string)
  : option match_obj :=
  match match_here ic p pos s with
  | Some m => Some m
  | None =>
      match s with
      | String _ s' => search_from ic p (S pos) s'
      | EmptyString => None
      end
  end.

(** [re.search(pattern, text, flags)] *)
Definition re_search (pat : string) (text : string) (ic : bool)
  : result (option match_obj) :=
  match re_parse pat with
  | Some p => Ok (search_from ic p O text)
  | None => Raise ReError
  end.

Fixpoint lookup_cap (n : nat) (caps : captures) : option string :=
  match caps with
  | (i, t) :: caps' => if Nat.eqb i n then Some t else lookup_cap n caps'
  | [] => None
  end.

(** [match.group(n)]: the text of group [n], [None] when the group took no
    part in the match, [IndexError] when the pattern has no such group. *)
Definition group (m : match_obj) (n : nat) : result (option string) :=
  if Nat.leb n (m_ngroups m)
  then match n with
       | O => Raise IndexError (* group 0 is not used by the program *)
       | _ => Ok (lookup_cap n (m_caps m))
       end
  else Raise IndexError.

(** [len(match.groups())] *)
Definition groups_len (m : match_obj) : nat := m_ngroups m.

(** ** Dictionaries with string keys and string values *)

Definition dict : Type := list (string * string).

Fixpoint dict_lookup (d : dict) (k : string) : option string :=
  match d with
  | (k', v) :: d' => if String.eqb k' k then Some v else dict_lookup d' k
  | [] => None
  end.

(** [d[k]] *)
Definition getitem (d : dict) (k : string) : result string :=
  match dict_lookup d k with
  | Some v => Ok v
  | None => Raise KeyError
  end.

(** [d.get(k, default)]; the default, already evaluated, may be [None]. *)
Definition dict_get (d : dict) (k : string) (default : option string)
  : option string :=
  match dict_lookup d k with
  | Some v => Some v
  | None => default
  end.

(** ** The program *)

(** [try: body  except (ValueError, AttributeError): return handler] *)
Definition try_except {A : Type} (body : result A) (handler : A) : result A :=
  match body with
  | Ok a => Ok a
  | Raise ValueError => Ok handler
  | Raise AttributeError => Ok handler
  | Raise e => Raise e
  end.

Definition LAB_TEST_PATTERNS : list dict :=
  [ [ ("name", "HB ESTIMATION");
      ("pattern", "HB\s+ESTIMATION\s*[:=]?\s*(\d+\.?\d*)\s*(g/dL)");
      ("unit", "g/dL");
      ("reference_range", "12.0-15.0") ];
    [ ("name", "PCV (PACKED CELL VOLUME)");
      ("pattern", "PCV\s*\(?PACKED\s+CELL\s+VOLUME\)?\s*[:=]?\s*(\d+\.?\d*)\s*(%)");
      ("unit", "%");
      ("reference_range", "36.0-46.0") ];
    [ ("name", "RBC COUNT");
      ("pattern", "RBC\s+COUNT\s*[:=]?\s*(\d+\.?\d*)\s*(million/cmm)");
      ("unit", "million/cmm");
      ("reference_range", "4.5-5.5") ];
    [ ("name", "WBC COUNT");
      ("pattern", "WBC\s+COUNT\s*[:=]?\s*(\d+\.?\d*)\s*(cells/cmm|/cmm)");
      ("unit", "/cmm");
      ("reference_range", "4000-11000") ];
    [ ("name", "PLATELET COUNT");
      ("pattern", "PLATELET\s+COUNT\s*[:=]?\s*(\d+\.?\d*)\s*(lakhs/cmm|/cmm)");
      ("unit", "lakhs/cmm");
      ("reference_range", "1.5-4.5") ] ].

(** [reference_range.split('-')]; [None] has no [split]. *)
Definition split_range (reference_range : option string) : result (list string) :=
  match reference_range with
  | Some r => Ok (split "-" r)
  | None => Raise AttributeError
  end.

(** [min_val, max_val = map(float, parts)]: the lazy [map] is consumed by the
    unpacking, which asks for a third element to see that there is none. *)
Definition unpack_two_floats (parts : list string) : result (pyfloat * pyfloat) :=
  match parts with
  | [] => Raise ValueError
  | p0 :: rest0 =>
      min_val <- float_of_str p0 ;;
      match rest0 with
      | [] => Raise ValueError
      | p1 :: rest1 =>
          max_val <- float_of_str p1 ;;
          match rest1 with
          | [] => Ok (min_val, max_val)
          | p2 :: _ => _ <- float_of_str p2 ;; Raise ValueError
          end
      end
  end.

Definition is_value_out_of_range (value reference_range : option string)
  : result bool :=
  try_except
    (parts <- split_range reference_range ;;
     bounds <- unpack_two_floats parts ;;
     let '(min_val, max_val) := bounds in
     test_val <- float value ;;
     Ok (flt test_val min_val || flt max_val test_val))
    false.

Record lab_result : Type := {
  test_name : string;
  test_value : option string;
  bio_reference_range : option string;
  test_unit : option string;
  lab_test_out_of_range : bool
}.

(** One turn of the loop of [extract_lab_tests]: the record to append, if
    the pattern of [test] is found in [text]. *)
Definition extract_one (test : dict) (text : string) : result (option lab_result) :=
  pat <- getitem test "pattern" ;;
  found <- re_search pat text true ;;
  match found with
  | Some m =>
      value <- group m 1 ;;
      default <- (if Nat.ltb 1 (groups_len m) then group m 2 else Ok (Some "")) ;;
      let unit := dict_get test "unit" default in
      let reference_range := dict_get test "reference_range" (Some "") in
      out_of_range <- is_value_out_of_range value reference_range ;;
      name <- getitem test "name" ;;
      Ok (Some {| test_name := name;
                  test_value := value;
                  bio_reference_range := reference_range;
                  test_unit := unit;
                  lab_test_out_of_range := out_of_range |})
  | None => Ok None
  end.

Fixpoint extract_loop (tests : list dict) (text : string) (results : list lab_result)
  : result (list lab_result) :=
  match tests with
  | [] => Ok results
  | test :: tests' =>
      r <- extract_one test text ;;
      extract_loop tests' text
        (match r with
         | Some record => results ++ [record]
         | None => results
         end)
  end.

Definition extract_lab_tests (text : string) : result (list lab_result) :=
  extract_loop LAB_TEST_PATTERNS text [].

(** ** Images and the calls into OpenCV, PIL and Tesseract *)

Definition color_image : Type := list (list (Z * Z * Z)).  (* rows of B, G, R *)
Definition gray_image : Type := list (list Z).

(** A library call returns, or raises an exception [e] with [str(e) = msg]. *)
Inductive lib_result (A : Type) : Type :=
| LOk (a : A)
| LRaise (msg : string).

Arguments LOk {A} a.
Arguments LRaise {A} msg.

Definition lbind {A B : Type} (r : lib_result A) (f : A -> lib_result B)
  : lib_result B :=
  match r with
  | LOk a => f a
  | LRaise msg => LRaise msg
  end.

Notation "x <~ r ;; k" := (lbind r (fun x => k))
  (at level 61, r at next level, right associativity).

(** What a request handler does: it returns, raises [HTTPException], or lets
    an exception of the text functions through. *)
Inductive outcome (A : Type) : Type :=
| Done (a : A)
| HTTPException (status_code : Z) (detail : string)
| Uncaught (e : exn).

Arguments Done {A} a.
Arguments HTTPException {A} status_code detail.
Arguments Uncaught {A} e.

Definition THRESH_BINARY : Z := 0.
Definition THRESH_BINARY_INV : Z := 1.
Definition THRESH_TRUNC : Z := 2.
Definition THRESH_TOZERO : Z := 3.
Definition THRESH_TOZERO_INV : Z := 4.
Definition THRESH_OTSU : Z := 8.

Record upload : Type := {
  content_type : option string;
  contents : list Z
}.

Record envelope : Type := {
  is_success : bool;
  message : option string;
  data : list lab_result
}.

Section Pipeline.
(** The libraries, as the program sees them. *)
Variable pil_image : Type.
(** the luminance OpenCV gives a B, G, R pixel *)
Variable gray_of_bgr : Z * Z * Z -> Z.
(** the level Otsu's method chooses for an image *)
Variable otsu_level : gray_image -> Z.
(** [cv2.imdecode]: [None] for a buffer that holds no image *)
Variable cv2_imdecode : list Z -> lib_result (option color_image).
(** the message of the [cv2.error] raised on an empty image *)
Variable empty_image_msg : string.
Variable Image_fromarray : gray_image -> lib_result pil_image.
Variable image_to_string : pil_image -> lib_result string.

(** [cv2.cvtColor(image, cv2.COLOR_BGR2GRAY)] *)
Definition cv2_cvtColor (image : option color_image) : lib_result gray_image :=
  match image with
  | Some rows => LOk (map (map gray_of_bgr) rows)
  | None => LRaise empty_image_msg
  end.

Definition threshold_pixel (kind thresh maxval p : Z) : Z :=
  if kind =? THRESH_BINARY then (if thresh <? p then maxval else 0)
  else if kind =? THRESH_BINARY_INV then (if thresh <? p then 0 else maxval)
  else if kind =? THRESH_TRUNC then (if thresh <? p then thresh else p)
  else if kind =? THRESH_TOZERO then (if thresh <? p then p else 0)
  else (if thresh <? p then 0 else p).

(** [cv2.threshold(src, thresh, maxval, type)]: with [THRESH_OTSU] in
    [type] the level is Otsu's and [thresh] is not used. *)
Definition cv2_threshold (src : gray_image) (thresh maxval type : Z)
  : Z * gray_image :=
  let level := if Z.testbit type 3 then otsu_level src else thresh in
  (level, map (map (threshold_pixel (Z.land type 7) level maxval)) src).

(** [scalar - array] on [uint8] *)
Definition rsub_uint8 (scalar : Z) (a : gray_image) : gray_image :=
  map (map (fun p => (scalar - p) mod 256)) a.

Definition preprocess_image (image : option color_image) : lib_result gray_image :=
  gray <~ cv2_cvtColor image ;;
  let '(_, binary) :=
    cv2_threshold gray 150 255 (THRESH_BINARY_INV + THRESH_OTSU) in
  let binary := rsub_uint8 255 binary in
  LOk binary.

Definition extract_text_from_image (image_data : list Z) : outcome string :=
  match (let nparr := image_data in
         img <~ cv2_imdecode nparr ;;
         processed_img <~ preprocess_image img ;;
         pil_img <~ Image_fromarray processed_img ;;
         text <~ image_to_string pil_img ;;
         LOk text) with
  | LOk text => Done text
  | LRaise msg => HTTPException 500 ("Error processing image: " ++ msg)
  end.

Definition get_lab_tests (file : option upload) : outcome envelope :=
  match file with
  | None => HTTPException 400 "No file uploaded"
  | Some f =>
      match content_type f with
      | None => Uncaught AttributeError
      | Some ct =>
          if negb (prefix "image/" ct)
          then HTTPException 400 "Uploaded file is not an image"
          else
            match extract_text_from_image (contents f) with
            | Done extracted_text =>
                match extract_lab_tests extracted_text with
                | Ok lab_tests =>
                    match lab_tests with
                    | [] =>
                        Done {| is_success := false;
                                message := Some "No lab tests could be identified in the image";
                                data := [] |}
                    | _ =>
                        Done {| is_success := true;
                                message := None;
                                data := lab_tests |}
                    end
                | Raise e => Uncaught e
                end
            | HTTPException status detail => HTTPException status detail
            | Uncaught e => Uncaught e
            end
      end
  end.
End Pipeline.

(** ** Definitions used to state the properties *)

(** The range reading of the specification: cut at the first [-] only, into
    exactly two parts.  Compared below with [is_value_out_of_range]. *)
Fixpoint split_first (sep : ascii) (s : string) : option (string * string) :=
  match s with
  | EmptyString => None
  | String c s' =>
      if Ascii.eqb c sep then Some (EmptyString, s')
      else match split_first sep s' with
           | Some (a, b) => Some (String c a, b)
           | None => None
           end
  end.

Definition spec_is_out_of_range (value reference_range : string) : result bool :=
  try_except
    (match split_first "-" reference_range with
     | Some (a, b) =>
         min_val <- float_of_str a ;;
         max_val <- float_of_str b ;;
         test_val <- float_of_str value ;;
         Ok (flt test_val min_val || flt max_val test_val)
     | None => Raise ValueError
     end)
    false.

(** The shape [\d+\.?\d*]: digits, then possibly a point, then digits. *)
Definition numeric_shape (v : string) : Prop :=
  exists ip dot fp,
    v = ip ++ dot ++ fp /\
    ip <> EmptyString /\ all_chars is_digit ip = true /\
    (dot = EmptyString \/ dot = ".") /\
    all_chars is_digit fp = true.

Definition numeric_regex : regex :=
  RCat (RPlus CDigit) (RCat (ROpt (CLit ".")) (RCat (RStar CDigit) REmpty)).

(** The strings a regex matches (captures aside). *)
Fixpoint lang (ic : bool) (r : regex) (t : string) : Prop :=
  match r with
  | REmpty => t = EmptyString
  | RChar cs => exists c, t = String c EmptyString /\ cs_mem ic cs c = true
  | RStar cs => all_chars (cs_mem ic cs) t = true
  | RPlus cs => t <> EmptyString /\ all_chars (cs_mem ic cs) t = true
  | ROpt cs =>
      t = EmptyString \/ exists c, t = String c EmptyString /\ cs_mem ic cs c = true
  | RCat r1 r2 => exists t1 t2, t = t1 ++ t2 /\ lang ic r1 t1 /\ lang ic r2 t2
  | RAlt r1 r2 => lang ic r1 t \/ lang ic r2 t
  | RGroup _ r1 => lang ic r1 t
  end.

(** The groups of a regex, with what each encloses. *)
Fixpoint groups_of (r : regex) : list (nat * regex) :=
  match r with
  | RCat r1 r2 => groups_of r1 ++ groups_of r2
  | RAlt r1 r2 => groups_of r1 ++ groups_of r2
  | RGroup n r1 => (n, r1) :: groups_of r1
  | _ => []
  end.

(** Group [n] takes part in every match of [r]. *)
Fixpoint always_captures (n : nat) (r : regex) : bool :=
  match r with
  | RCat r1 r2 => always_captures n r1 || always_captures n r2
  | RAlt r1 r2 => always_captures n r1 && always_captures n r2
  | RGroup m r1 => Nat.eqb m n || always_captures n r1
  | _ => false
  end.

(** The pattern of [test] is found somewhere in [text]. *)
Definition matches_test (test : dict) (text : string) : bool :=
  match getitem test "pattern" with
  | Ok pat =>
      match re_search pat text true with
      | Ok (Some _) => true
      | _ => false
      end
  | Raise _ => false
  end.

(** The text from position [pos] on. *)
Fixpoint drop (pos : nat) (s : string) : string :=
  match pos, s with
  | O, _ => s
  | S n, String _ s' => drop n s'
  | S _, EmptyString => EmptyString
  end.

(** The pattern matches at the position where [s] starts. *)
Definition matches_at (ic : bool) (r : regex) (s : string) : Prop :=
  exists t rest, s = t ++ rest /\ lang ic r t.

(** The canonical name of a catalog entry. *)
Definition name_of (test : dict) : string :=
  match dict_lookup test "name" with
  | Some n => n
  | None => EmptyString
  end.

(** What every entry of the catalog provides: the four keys, a pattern of
    the supported language with two groups that take part in every match,
    the first enclosing [\d+\.?\d*]. *)
Record test_ok (test : dict) (name pat unit range : string) (p : pattern)
  : Prop := {
  ok_name : dict_lookup test "name" = Some name;
  ok_pattern : dict_lookup test "pattern" = Some pat;
  ok_unit : dict_lookup test "unit" = Some unit;
  ok_range : dict_lookup test "reference_range" = Some range;
  ok_parse : re_parse pat = Some p;
  ok_groups : pat_groups p = 2%nat;
  ok_first : always_captures 1 (pat_regex p) = true;
  ok_second : always_captures 2 (pat_regex p) = true;
  ok_value : forall r1, In (1%nat, r1) (groups_of (pat_regex p)) -> r1 = numeric_regex
}.

(** An entry with all of that. *)
Definition well_formed (test : dict) : Prop :=
  exists name pat unit range p, test_ok test name pat unit range p.

(** A character of a decimal numeral: a digit or the point. *)
Definition numeric_char (c : ascii) : bool := is_digit c || Ascii.eqb c ".".

(** The record [extract_lab_tests] builds from a match. *)
Definition record_of (name unit range : string) (m : match_obj) : lab_result :=
  let value := lookup_cap 1 (m_caps m) in
  {| test_name := name;
     test_value := value;
     bio_reference_range := Some range;
     test_unit := Some unit;
     lab_test_out_of_range :=
       match is_value_out_of_range value (Some range) with
       | Ok b => b
       | Raise _ => false
       end |}.

(** The records one turn of the loop adds. *)
Definition records_of (test : dict) (text : string) : list lab_result :=
  match extract_one test text with
  | Ok (Some record) => [record]
  | _ => []
  end.

(** A stand-in for the libraries, to run the pipeline on examples. *)
Definition sample_gray (px : Z * Z * Z) : Z :=
  let '(b, g, r) := px in (1868 * b + 9617 * g + 4899 * r + 8192) / 16384.

Definition sample_otsu (_ : gray_image) : Z := 127.

Definition sample_imdecode (image_data : list Z)
  : lib_result (option color_image) :=
  match image_data with
  | [] => LRaise "empty buffer"
  | 137 :: _ => LOk (Some [[(255, 255, 255); (0, 0, 0)]; [(10, 20, 30); (200, 210, 220)]])
  | _ => LOk None
  end.

Definition sample_fromarray (a : gray_image) : lib_result gray_image := LOk a.

Definition sample_ocr (text : string) (_ : gray_image) : lib_result string :=
  LOk text.

(** ** Definitions used by the further properties *)

(** Some character of the string is a digit. *)
Fixpoint has_digit (s : string) : bool :=
  match s with
  | String c s' => is_digit c || has_digit s'
  | EmptyString => false
  end.

(** Every string the regex matches holds a digit: a sufficient check on the
    syntax. *)
Fixpoint requires_digit (r : regex) : bool :=
  match r with
  | RChar CDigit => true
  | RPlus CDigit => true
  | RCat r1 r2 => requires_digit r1 || requires_digit r2
  | RAlt r1 r2 => requires_digit r1 && requires_digit r2
  | RGroup _ r1 => requires_digit r1
  | _ => false
  end.

(** The string with [f] applied to each character. *)
Fixpoint smap (f : ascii -> ascii) (s : string) : string :=
  match s with
  | String c s' => String (f c) (smap f s')
  | EmptyString => EmptyString
  end.

(** The ASCII letters in upper case, every other character kept. *)
Definition ascii_upper (c : ascii) : ascii :=
  if between 97 122 c then ascii_of_N (N_of_ascii c - 32) else c.

Definition cmap (f : ascii -> ascii) (caps : captures) : captures :=
  map (fun nt => (fst nt, smap f (snd nt))) caps.

Definition mmap (f : ascii -> ascii) (m : match_obj) : match_obj :=
  {| m_start := m_start m;
     m_end := m_end m;
     m_caps := cmap f (m_caps m);
     m_ngroups := m_ngroups m |}.

(** A catalog entry that declares neither a unit nor a reference range. *)
Definition sample_entry : dict :=
  [ ("name", "GLUCOSE");
    ("pattern", "GLUCOSE\s*[:=]?\s*(\d+)\s*(mg/dL)") ].

(** * Properties *)

(** ** Comparison of binary64 numbers *)

Lemma SFcompare_antisym (x y : pyfloat) :
  SFcompare y x = option_map CompOpp (SFcompare x y).
Proof.
  destruct x as [sx|sx| |sx mx ex], y as [sy|sy| |sy my ey]; simpl;
    try reflexivity;
    try (destruct sx; reflexivity); try (destruct sy; reflexivity);
    try (destruct sx, sy; reflexivity).
  destruct sx, sy; simpl; try reflexivity;
    rewrite (Z.compare_antisym ex ey);
    destruct (ex ?= ey)%Z eqn:E; simpl; try reflexivity;
    rewrite (Pos.compare_cont_antisym mx my Eq); simpl;
    destruct (Pos.compare_cont Eq mx my); reflexivity.
Qed.

Lemma fle_not_flt (x y : pyfloat) : fle x y = true -> flt y x = false.
Proof.
  unfold fle, flt, SFleb, SFltb. rewrite (SFcompare_antisym x y).
  destruct (SFcompare x y) as [[| |]|]; simpl; congruence.
Qed.

(** ** [float] raises nothing but [ValueError] on a string *)

Lemma float_from_string_inner_exn (s : string) (e : exn) :
  float_from_string_inner s = Raise e -> e = ValueError.
Proof.
  unfold float_from_string_inner.
  destruct (lstrip s); [congruence|].
  destruct (PyOS_string_to_double _) as [[x [|c r]]|]; congruence.
Qed.

Lemma float_of_str_exn (s : string) (e : exn) :
  float_of_str s = Raise e -> e = ValueError.
Proof.
  unfold float_of_str, string_to_number_with_underscores.
  destruct (mem_char _ _).
  - destruct (strip_underscores _ _); [apply float_from_string_inner_exn|congruence].
  - apply float_from_string_inner_exn.
Qed.

Lemma unpack_two_floats_exn (parts : list string) (e : exn) :
  unpack_two_floats parts = Raise e -> e = ValueError.
Proof.
  destruct parts as [|p0 [|p1 [|p2 rest]]]; simpl; try congruence.
  - destruct (float_of_str p0) eqn:E0; simpl; try congruence.
    intros H; inversion H; subst. eapply float_of_str_exn; eauto.
  - destruct (float_of_str p0) eqn:E0; simpl.
    + destruct (float_of_str p1) eqn:E1; simpl; try congruence.
      intros H; inversion H; subst. eapply float_of_str_exn; eauto.
    + intros H; inversion H; subst. eapply float_of_str_exn; eauto.
  - destruct (float_of_str p0) eqn:E0; simpl.
    + destruct (float_of_str p1) eqn:E1; simpl.
      * destruct (float_of_str p2) eqn:E2; simpl; try congruence.
        intros H; inversion H; subst. eapply float_of_str_exn; eauto.
      * intros H; inversion H; subst. eapply float_of_str_exn; eauto.
    + intros H; inversion H; subst. eapply float_of_str_exn; eauto.
Qed.

(** What [is_value_out_of_range] computes on two strings. *)
Lemma is_value_out_of_range_eq (value reference_range : string) :
  is_value_out_of_range (Some value) (Some reference_range) =
  Ok (match unpack_two_floats (split "-" reference_range) with
      | Ok (min_val, max_val) =>
          match float_of_str value with
          | Ok test_val => flt test_val min_val || flt max_val test_val
          | Raise _ => false
          end
      | Raise _ => false
      end).
Proof.
  unfold is_value_out_of_range; simpl.
  destruct (unpack_two_floats _) as [[a b]|e] eqn:E; simpl.
  - destruct (float_of_str value) as [x|e] eqn:F; simpl; [reflexivity|].
    apply float_of_str_exn in F; subst; reflexivity.
  - apply unpack_two_floats_exn in E; subst; reflexivity.
Qed.

(** ** [str.split] *)

Lemma split_not_nil (sep : ascii) (s : string) : split sep s <> [].
Proof.
  induction s as [|c s IH]; simpl; [discriminate|].
  destruct (Ascii.eqb c sep); [discriminate|].
  destruct (split sep s); [contradiction|discriminate].
Qed.

Lemma split_no_sep (sep : ascii) (s : string) :
  mem_char sep s = false -> split sep s = [s].
Proof.
  induction s as [|c s IH]; simpl; [reflexivity|].
  rewrite (Ascii.eqb_sym sep c). intros H.
  apply orb_false_iff in H as [Hc Hs]. rewrite Hc, (IH Hs). reflexivity.
Qed.

Lemma split_app (sep : ascii) (a b : string) :
  mem_char sep a = false ->
  split sep (a ++ String sep b) = a :: split sep b.
Proof.
  induction a as [|c a IH]; simpl.
  - intros _. rewrite Ascii.eqb_refl. reflexivity.
  - rewrite (Ascii.eqb_sym sep c). intros H.
    apply orb_false_iff in H as [Hc Ha]. rewrite Hc, (IH Ha). reflexivity.
Qed.

Lemma split_with_sep (sep : ascii) (s : string) :
  mem_char sep s = true -> exists p q rest, split sep s = p :: q :: rest.
Proof.
  induction s as [|c s IH]; simpl; [discriminate|].
  rewrite (Ascii.eqb_sym sep c).
  destruct (Ascii.eqb c sep); simpl.
  - intros _. destruct (split sep s) as [|q rest] eqn:E.
    + exfalso. exact (split_not_nil _ _ E).
    + eauto.
  - intros H. destruct (IH H) as (p & q & rest & E). rewrite E. eauto.
Qed.

Lemma split_first_inv (sep : ascii) (s a b : string) :
  split_first sep s = Some (a, b) ->
  mem_char sep a = false /\ s = a ++ String sep b.
Proof.
  revert a. induction s as [|c s IH]; simpl; intros a; [discriminate|].
  destruct (Ascii.eqb c sep) eqn:E.
  - intros H; inversion H; subst. apply Ascii.eqb_eq in E; subst.
    split; reflexivity.
  - destruct (split_first sep s) as [[a' b']|]; [|discriminate].
    intros H; inversion H; subst.
    destruct (IH a' eq_refl) as [Hm Hs]. split.
    + simpl. rewrite (Ascii.eqb_sym sep c), E, Hm. reflexivity.
    + simpl. rewrite <- Hs. reflexivity.
Qed.

Lemma unpack_three_raises (p0 p1 p2 : string) (rest : list string) :
  unpack_two_floats (p0 :: p1 :: p2 :: rest) = Raise ValueError.
Proof.
  pose proof (unpack_two_floats_exn (p0 :: p1 :: p2 :: rest)) as H.
  destruct (unpack_two_floats (p0 :: p1 :: p2 :: rest)) as [[a b]|e] eqn:E.
  - exfalso. simpl in E.
    destruct (float_of_str p0); simpl in E; [|discriminate].
    destruct (float_of_str p1); simpl in E; [|discriminate].
    destruct (float_of_str p2); simpl in E; discriminate.
  - rewrite (H e eq_refl). reflexivity.
Qed.

(** ** The range evaluator *)

(** C2.  On any two strings [is_value_out_of_range] returns a boolean, it
    never raises; whenever [float] refuses the value, or the range does not
    unpack into two numbers, the boolean is [false]. *)
Theorem is_value_out_of_range_never_raises (value reference_range : string) :
  (exists b, is_value_out_of_range (Some value) (Some reference_range) = Ok b) /\
  ((exists e, float_of_str value = Raise e) \/
   (exists e, unpack_two_floats (split "-" reference_range) = Raise e) ->
   is_value_out_of_range (Some value) (Some reference_range) = Ok false).
Proof.
  rewrite is_value_out_of_range_eq. split; [eauto|].
  intros [[e H]|[e H]]; rewrite H.
  - destruct (unpack_two_floats _) as [[a b]|]; reflexivity.
  - reflexivity.
Qed.

Lemma is_value_out_of_range_never_raises_witness :
  (exists b, is_value_out_of_range (Some "abc") (Some "12.0-15.0") = Ok b) /\
  is_value_out_of_range (Some "abc") (Some "12.0-15.0") = Ok false /\
  is_value_out_of_range (Some "13.0") (Some "bad-range") = Ok false.
Proof.
  split; [|split].
  - apply (is_value_out_of_range_never_raises "abc" "12.0-15.0").
  - apply (is_value_out_of_range_never_raises "abc" "12.0-15.0").
    left. exists ValueError. reflexivity.
  - apply (is_value_out_of_range_never_raises "13.0" "bad-range").
    right. exists ValueError. reflexivity.
Defined.

(** C1, as stated, fails on a negative bound: the value -7 lies below the
    range -5 to 10, yet the answer is [false], because the range string is
    cut at every [-]. *)
Lemma is_value_out_of_range_negative_bound :
  exists a b v,
    float_of_str "-5" = Ok a /\ float_of_str "10" = Ok b /\
    float_of_str "-7" = Ok v /\
    flt v a = true /\
    is_value_out_of_range (Some "-7") (Some ("-5" ++ "-" ++ "10")) = Ok false.
Proof.
  do 3 eexists. repeat split; vm_compute; reflexivity.
Qed.

(** C1, amended.  For a range string [a-b] whose bounds [a] and [b] hold no
    [-] and are accepted by [float], and a value accepted by [float], the
    answer is [true] exactly when the value is below [a] or above [b]
    (as binary64 numbers), and [false] whenever [a <= v <= b]. *)
Theorem is_value_out_of_range_iff
  (a b value : string) (fa fb v : pyfloat) :
  mem_char "-" a = false -> mem_char "-" b = false ->
  float_of_str a = Ok fa -> float_of_str b = Ok fb ->
  float_of_str value = Ok v ->
  (is_value_out_of_range (Some value) (Some (a ++ "-" ++ b)) = Ok true <->
   flt v fa = true \/ flt fb v = true) /\
  (fle fa v = true -> fle v fb = true ->
   is_value_out_of_range (Some value) (Some (a ++ "-" ++ b)) = Ok false).
Proof.
  intros Ha Hb Fa Fb Fv.
  rewrite is_value_out_of_range_eq.
  change (a ++ "-" ++ b) with (a ++ String "-" b).
  rewrite (split_app _ _ _ Ha), (split_no_sep _ _ Hb).
  simpl. rewrite Fa; simpl. rewrite Fb; simpl. rewrite Fv.
  split.
  - split.
    + intros H. injection H as H1. apply orb_true_iff in H1. exact H1.
    + intros H. apply orb_true_iff in H. rewrite H. reflexivity.
  - intros L1 L2. rewrite (fle_not_flt _ _ L1), (fle_not_flt _ _ L2). reflexivity.
Qed.

Lemma is_value_out_of_range_iff_witness :
  is_value_out_of_range (Some "12.0") (Some "12.0-15.0") = Ok false /\
  is_value_out_of_range (Some "15.0") (Some "12.0-15.0") = Ok false /\
  is_value_out_of_range (Some "15.5") (Some "12.0-15.0") = Ok true.
Proof.
  split; [|split].
  - apply (is_value_out_of_range_iff "12.0" "15.0" "12.0" _ _ _
             eq_refl eq_refl eq_refl eq_refl eq_refl); reflexivity.
  - apply (is_value_out_of_range_iff "12.0" "15.0" "15.0" _ _ _
             eq_refl eq_refl eq_refl eq_refl eq_refl); reflexivity.
  - apply (is_value_out_of_range_iff "12.0" "15.0" "15.5" _ _ _
             eq_refl eq_refl eq_refl eq_refl eq_refl).
    right. reflexivity.
Defined.

(** The comparison is between binary64 numbers: two decimals that round to
    the same number compare equal. *)
Example nearby_decimals_compare_equal :
  float_of_str "0.29999999999999999" = float_of_str "0.3" /\
  is_value_out_of_range (Some "0.29999999999999999") (Some "0.3-1") = Ok false.
Proof. split; vm_compute; reflexivity. Qed.

(** C6, as stated, fails: cutting ["1--5"] at its first [-] gives the two
    numbers 1 and -5, and 3 is above -5; the program cuts at every [-], finds
    three parts and answers [false]. *)
Lemma first_dash_split_differs :
  split_first "-" "1--5" = Some ("1", "-5") /\
  (exists fa fb v,
      float_of_str "1" = Ok fa /\ float_of_str "-5" = Ok fb /\
      float_of_str "3" = Ok v /\ flt fb v = true) /\
  spec_is_out_of_range "3" "1--5" = Ok true /\
  is_value_out_of_range (Some "3") (Some "1--5") = Ok false.
Proof.
  split; [reflexivity|]. split; [|split; vm_compute; reflexivity].
  do 3 eexists. repeat split; vm_compute; reflexivity.
Qed.

(** C6, amended.  The range string is cut at every [-] and must fall into
    exactly two parts.  When the part after the first [-] holds no further
    [-] and both parts are numbers, the comparison uses exactly those two
    numbers; when it holds another [-], the answer is [false]. *)
Theorem range_split_at_every_dash (value range a b : string) :
  split_first "-" range = Some (a, b) ->
  split "-" range = a :: split "-" b /\
  (mem_char "-" b = false ->
   forall fa fb v,
     float_of_str a = Ok fa -> float_of_str b = Ok fb ->
     float_of_str value = Ok v ->
     is_value_out_of_range (Some value) (Some range) = Ok (flt v fa || flt fb v)) /\
  (mem_char "-" b = true ->
   is_value_out_of_range (Some value) (Some range) = Ok false).
Proof.
  intros H. apply split_first_inv in H as [Ha ->].
  assert (S : split "-" (a ++ String "-" b) = a :: split "-" b)
    by (apply split_app; exact Ha).
  split; [exact S|]. rewrite is_value_out_of_range_eq, S. split.
  - intros Hb fa fb v Fa Fb Fv. rewrite (split_no_sep _ _ Hb).
    simpl. rewrite Fa; simpl. rewrite Fb; simpl. rewrite Fv. reflexivity.
  - intros Hb. destruct (split_with_sep _ _ Hb) as (p & q & rest & E).
    rewrite E, unpack_three_raises. reflexivity.
Qed.

Lemma range_split_at_every_dash_witness :
  split "-" "12.0-15.0" = ["12.0"; "15.0"] /\
  is_value_out_of_range (Some "10.5") (Some "12.0-15.0") = Ok true /\
  is_value_out_of_range (Some "3") (Some "1--5") = Ok false.
Proof.
  split; [|split].
  - apply (range_split_at_every_dash "10.5" "12.0-15.0" "12.0" "15.0" eq_refl).
  - exact (proj1 (proj2 (range_split_at_every_dash "10.5" "12.0-15.0" "12.0" "15.0"
                            eq_refl))
             eq_refl _ _ _ eq_refl eq_refl eq_refl).
  - apply (range_split_at_every_dash "3" "1--5" "1" "-5" eq_refl). reflexivity.
Defined.

(** ** The image stages *)

Section PipelineProperties.
Variable pil_image : Type.
Variable gray_of_bgr : Z * Z * Z -> Z.
Variable otsu_level : gray_image -> Z.
Variable cv2_imdecode : list Z -> lib_result (option color_image).
Variable empty_image_msg : string.
Variable Image_fromarray : gray_image -> lib_result pil_image.
Variable image_to_string : pil_image -> lib_result string.

Lemma map_map_ext {A B : Type} (f g : A -> B) (rows : list (list A)) :
  (forall x, f x = g x) -> map (map f) rows = map (map g) rows.
Proof.
  intros H. apply map_ext. intros row. apply map_ext. exact H.
Qed.

Lemma map_map_map {A B C : Type} (f : A -> B) (g : B -> C) (rows : list (list A)) :
  map (map g) (map (map f) rows) = map (map (fun x => g (f x))) rows.
Proof.
  rewrite map_map. apply map_ext. intros row. apply map_map.
Qed.

(** What [preprocess_image] returns on a decoded image: pixel by pixel, 255
    where the luminance is above Otsu's level and 0 elsewhere. *)
Lemma preprocess_image_eq (image : color_image) :
  preprocess_image gray_of_bgr otsu_level empty_image_msg (Some image) =
  LOk (map (map (fun px =>
         if otsu_level (map (map gray_of_bgr) image) <? gray_of_bgr px
         then 255 else 0)) image).
Proof.
  unfold preprocess_image, cv2_threshold, rsub_uint8; simpl.
  f_equal. rewrite !map_map_map. apply map_map_ext. intros px.
  unfold threshold_pixel; simpl.
  destruct (_ <? _); reflexivity.
Qed.

(** C9.  On every decoded colour image [preprocess_image] returns a
    one-channel image with the rows and columns of its input; each pixel is
    255 minus the pixel [cv2.threshold] gave (inverted binary, Otsu's
    level, seed 150), hence 0 or 255, and it is 255 exactly where the
    luminance is above the level: bright stays bright, dark stays dark. *)
Theorem preprocess_image_binary (image : color_image) :
  exists out,
    preprocess_image gray_of_bgr otsu_level empty_image_msg (Some image) = LOk out /\
    List.length out = List.length image /\
    (forall i, List.length (nth i out []) = List.length (nth i image [])) /\
    out = map (map (fun t => 255 - t))
            (snd (cv2_threshold otsu_level (map (map gray_of_bgr) image)
                    150 255 (THRESH_BINARY_INV + THRESH_OTSU))) /\
    (forall row p, In row out -> In p row -> p = 0 \/ p = 255) /\
    out = map (map (fun px =>
            if otsu_level (map (map gray_of_bgr) image) <? gray_of_bgr px
            then 255 else 0)) image.
Proof.
  eexists. split; [apply preprocess_image_eq|].
  split; [apply length_map|]. split; [|split; [|split]].
  - intros i. destruct (Nat.lt_ge_cases i (List.length image)) as [Hi|Hi].
    + match goal with
      | |- context [nth i (map ?f image) []] =>
          change (@nil Z) with (f []) at 1; rewrite (map_nth f image [] i)
      end.
      apply length_map.
    + rewrite !nth_overflow; [reflexivity|exact Hi|rewrite length_map; exact Hi].
  - unfold cv2_threshold; simpl. rewrite !map_map_map.
    apply map_map_ext. intros px. unfold threshold_pixel; simpl.
    destruct (_ <? _); reflexivity.
  - intros row p Hrow Hp. apply in_map_iff in Hrow as (r0 & <- & _).
    apply in_map_iff in Hp as (px & <- & _).
    destruct (_ <? _); auto.
  - reflexivity.
Qed.

(** C8.  A buffer that holds no image, a decoder that raises, or an OCR
    step that raises: each ends [extract_text_from_image] with one
    [HTTPException] of status 500 whose detail names the cause; text is
    returned only when every step returned, and then it is the text the OCR
    engine gave. *)
Theorem extract_text_from_image_errors (image_data : list Z) :
  (cv2_imdecode image_data = LOk None ->
   extract_text_from_image pil_image gray_of_bgr otsu_level cv2_imdecode
     empty_image_msg Image_fromarray image_to_string image_data
   = HTTPException 500 ("Error processing image: " ++ empty_image_msg)) /\
  (forall msg,
      cv2_imdecode image_data = LRaise msg ->
      extract_text_from_image pil_image gray_of_bgr otsu_level cv2_imdecode
        empty_image_msg Image_fromarray image_to_string image_data
      = HTTPException 500 ("Error processing image: " ++ msg)) /\
  (forall img processed msg,
      cv2_imdecode image_data = LOk (Some img) ->
      preprocess_image gray_of_bgr otsu_level empty_image_msg (Some img)
      = LOk processed ->
      (Image_fromarray processed = LRaise msg \/
       exists pil, Image_fromarray processed = LOk pil /\
                   image_to_string pil = LRaise msg) ->
      extract_text_from_image pil_image gray_of_bgr otsu_level cv2_imdecode
        empty_image_msg Image_fromarray image_to_string image_data
      = HTTPException 500 ("Error processing image: " ++ msg)) /\
  (forall text,
      extract_text_from_image pil_image gray_of_bgr otsu_level cv2_imdecode
        empty_image_msg Image_fromarray image_to_string image_data
      = Done text ->
      exists img processed pil,
        cv2_imdecode image_data = LOk (Some img) /\
        preprocess_image gray_of_bgr otsu_level empty_image_msg (Some img)
        = LOk processed /\
        Image_fromarray processed = LOk pil /\
        image_to_string pil = LOk text) /\
  (forall e,
      extract_text_from_image pil_image gray_of_bgr otsu_level cv2_imdecode
        empty_image_msg Image_fromarray image_to_string image_data
      <> Uncaught e).
Proof.
  unfold extract_text_from_image.
  destruct (cv2_imdecode image_data) as [[img|]|m0] eqn:D;
    cbn [lbind].
  - pose proof (preprocess_image_eq img) as P.
    match type of P with _ = LOk ?x => set (processed := x) in P end.
    rewrite P; cbn [lbind].
    assert (Inv : forall img' p',
               LOk (Some img) = LOk (Some img') ->
               preprocess_image gray_of_bgr otsu_level empty_image_msg (Some img')
               = LOk p' -> p' = processed).
    { intros img' p' Hd Hp. injection Hd as <-. congruence. }
    destruct (Image_fromarray processed) as [pil|m1] eqn:F; cbn [lbind].
    + destruct (image_to_string pil) as [text|m2] eqn:T; cbn [lbind].
      * repeat split; try discriminate.
        -- intros img' p' msg Hd Hp [Hf|(pil' & Hf & Ht)];
             rewrite (Inv _ _ Hd Hp) in Hf; congruence.
        -- intros t Ht. injection Ht as <-. exists img, processed, pil. auto.
      * repeat split; try discriminate.
        intros img' p' msg Hd Hp [Hf|(pil' & Hf & Ht)];
          rewrite (Inv _ _ Hd Hp) in Hf; congruence.
    + repeat split; try discriminate.
      intros img' p' msg Hd Hp [Hf|(pil' & Hf & Ht)];
        rewrite (Inv _ _ Hd Hp) in Hf; congruence.
  - cbn. repeat split; try discriminate.
  - repeat split; try discriminate.
    intros msg H. injection H as <-. reflexivity.
Qed.
End PipelineProperties.

Lemma preprocess_image_binary_witness :
  exists out,
    preprocess_image sample_gray sample_otsu "empty image"
      (Some [[(255, 255, 255); (0, 0, 0)]; [(10, 20, 30); (200, 210, 220)]])
    = LOk out /\
    out = [[255; 0]; [0; 255]].
Proof.
  destruct (preprocess_image_binary sample_gray sample_otsu "empty image"
              [[(255, 255, 255); (0, 0, 0)]; [(10, 20, 30); (200, 210, 220)]])
    as (out & H & _ & _ & _ & _ & E).
  exists out. split; [exact H|exact E].
Defined.

Lemma extract_text_from_image_errors_witness :
  extract_text_from_image gray_image sample_gray sample_otsu sample_imdecode
    "empty image" sample_fromarray (sample_ocr "text") [0; 1; 2]
  = HTTPException 500 "Error processing image: empty image" /\
  extract_text_from_image gray_image sample_gray sample_otsu sample_imdecode
    "empty image" sample_fromarray (sample_ocr "text") []
  = HTTPException 500 "Error processing image: empty buffer".
Proof.
  split.
  - apply (proj1 (extract_text_from_image_errors gray_image sample_gray sample_otsu
                    sample_imdecode "empty image" sample_fromarray
                    (sample_ocr "text") [0; 1; 2])).
    reflexivity.
  - apply (proj1 (proj2 (extract_text_from_image_errors gray_image sample_gray
                           sample_otsu sample_imdecode "empty image"
                           sample_fromarray (sample_ocr "text") []))).
    reflexivity.
Defined.

(** ** Strings *)

Lemma append_nil_r (s : string) : s ++ EmptyString = s.
Proof. induction s as [|c s IH]; simpl; [reflexivity|now rewrite IH]. Qed.

Lemma append_assoc (a b c : string) : (a ++ b) ++ c = a ++ (b ++ c).
Proof. induction a as [|x a IH]; simpl; [reflexivity|now rewrite IH]. Qed.

Lemma length_append (a b : string) :
  String.length (a ++ b) = (String.length a + String.length b)%nat.
Proof. induction a as [|x a IH]; simpl; [reflexivity|now rewrite IH]. Qed.

Lemma substring_prefix (a b : string) :
  substring 0 (String.length a) (a ++ b) = a.
Proof.
  induction a as [|x a IH]; simpl.
  - destruct b; reflexivity.
  - now rewrite IH.
Qed.

Lemma consumed_append (t s' : string) : consumed (t ++ s') s' = t.
Proof.
  unfold consumed. rewrite length_append.
  replace (String.length t + String.length s' - String.length s')%nat
    with (String.length t) by lia.
  apply substring_prefix.
Qed.

Lemma all_chars_append (p : ascii -> bool) (a b : string) :
  all_chars p (a ++ b) = all_chars p a && all_chars p b.
Proof.
  induction a as [|x a IH]; simpl; [reflexivity|].
  rewrite IH. apply andb_assoc.
Qed.

Lemma drop_append (pre rest : string) : drop (String.length pre) (pre ++ rest) = rest.
Proof. induction pre as [|c pre IH]; simpl; [reflexivity|exact IH]. Qed.

Lemma drop_succ (j : nat) (c : ascii) (s : string) : drop (S j) (String c s) = drop j s.
Proof. reflexivity. Qed.

(** ** The matcher finds exactly the strings of [lang] *)

Section MatcherProperties.
Context {A : Type}.
Variable ic : bool.

Lemma star_match_sound (cs : charset) (s : string) (k : string -> option A) (x : A) :
  star_match ic cs s k = Some x ->
  exists t s', s = t ++ s' /\ all_chars (cs_mem ic cs) t = true /\ k s' = Some x.
Proof.
  induction s as [|c s IH]; simpl.
  - intros H. exists EmptyString, EmptyString. auto.
  - destruct (cs_mem ic cs c) eqn:M.
    + destruct (star_match ic cs s k) as [y|] eqn:E.
      * intros H. injection H as <-.
        destruct (IH eq_refl) as (t & s' & -> & Ht & Hk).
        exists (String c t), s'. simpl. rewrite M, Ht. auto.
      * intros H. exists EmptyString, (String c s). auto.
    + intros H. exists EmptyString, (String c s). auto.
Qed.

Lemma star_match_complete (cs : charset) (t s' : string) (k : string -> option A) :
  all_chars (cs_mem ic cs) t = true ->
  k s' <> None ->
  star_match ic cs (t ++ s') k <> None.
Proof.
  intros Ht Hk. induction t as [|c t IH]; simpl.
  - destruct s' as [|c s']; simpl; [exact Hk|].
    destruct (cs_mem ic cs c); [|exact Hk].
    destruct (star_match ic cs s' k); [discriminate|exact Hk].
  - simpl in Ht. apply andb_true_iff in Ht as [Hc Ht]. rewrite Hc.
    destruct (star_match ic cs (t ++ s') k) eqn:E; [discriminate|].
    exfalso. exact (IH Ht eq_refl).
Qed.

(** Soundness: a successful run consumed a string of [lang], called the
    continuation on the rest, and recorded for each group it went through
    a string of the language of that group. *)
Lemma rmatch_sound (G : list (nat * regex)) (r : regex) :
  forall (s : string) (caps : captures)
         (k : string -> captures -> option A) (x : A),
    incl (groups_of r) G ->
    rmatch ic r s caps k = Some x ->
    exists t s' new,
      s = t ++ s' /\ lang ic r t /\ k s' (new ++ caps)%list = Some x /\
      (forall n u, In (n, u) new -> exists r1, In (n, r1) G /\ lang ic r1 u) /\
      (forall n, always_captures n r = true -> In n (map fst new)).
Proof.
  induction r as [|cs|cs|cs|cs|r1 IH1 r2 IH2|r1 IH1 r2 IH2|n r1 IH1];
    intros s caps k x HG H; simpl in H.
  - exists EmptyString, s, []. simpl. repeat split; auto; try contradiction; discriminate.
  - destruct s as [|c s]; [discriminate|].
    destruct (cs_mem ic cs c) eqn:M; [|discriminate].
    exists (String c EmptyString), s, []. simpl.
    repeat split; eauto; try contradiction; discriminate.
  - apply star_match_sound in H as (t & s' & -> & Ht & Hk).
    exists t, s', []. simpl. repeat split; auto; try contradiction; discriminate.
  - destruct s as [|c s]; [discriminate|].
    destruct (cs_mem ic cs c) eqn:M; [|discriminate].
    apply star_match_sound in H as (t & s' & -> & Ht & Hk).
    exists (String c t), s', []. simpl. rewrite M, Ht.
    repeat split; auto; try contradiction; discriminate.
  - assert (Skip : k s caps = Some x ->
              exists t s' new,
                s = t ++ s' /\ lang ic (ROpt cs) t /\ k s' (new ++ caps)%list = Some x /\
                (forall n u, In (n, u) new -> exists r1, In (n, r1) G /\ lang ic r1 u) /\
                (forall n, always_captures n (ROpt cs) = true -> In n (map fst new))).
    { intros Hk. exists EmptyString, s, []. simpl.
      repeat split; auto; try contradiction; discriminate. }
    destruct s as [|c s]; [exact (Skip H)|].
    destruct (cs_mem ic cs c) eqn:M; [|exact (Skip H)].
    destruct (k s caps) as [y|] eqn:E; [|exact (Skip H)].
    injection H as <-.
    exists (String c EmptyString), s, []. simpl.
    repeat split; eauto; try contradiction; discriminate.
  - simpl in HG.
    apply IH1 in H as (t1 & s1 & new1 & -> & L1 & H & C1 & P1);
      [|intros g Hg; apply HG, in_or_app; auto].
    apply IH2 in H as (t2 & s2 & new2 & -> & L2 & H & C2 & P2);
      [|intros g Hg; apply HG, in_or_app; auto].
    exists (t1 ++ t2), s2, (new2 ++ new1)%list.
    rewrite append_assoc, <- app_assoc. repeat split; auto.
    + simpl. eauto.
    + intros n u Hin. apply in_app_or in Hin as [Hin|Hin]; eauto.
    + intros n Hn. simpl in Hn. rewrite map_app. apply in_or_app.
      apply orb_true_iff in Hn as [Hn|Hn]; auto.
  - simpl in HG.
    destruct (rmatch ic r1 s caps k) as [y|] eqn:E.
    + injection H as <-.
      apply IH1 in E as (t & s' & new & -> & L & H & C & P);
        [|intros g Hg; apply HG, in_or_app; auto].
      exists t, s', new. repeat split; auto.
      * simpl; auto.
      * intros n Hn. simpl in Hn. apply andb_true_iff in Hn as [Hn _]. auto.
    + apply IH2 in H as (t & s' & new & -> & L & H & C & P);
        [|intros g Hg; apply HG, in_or_app; auto].
      exists t, s', new. repeat split; auto.
      * simpl; auto.
      * intros m Hm. simpl in Hm. apply andb_true_iff in Hm as [_ Hm]. auto.
  - simpl in HG.
    apply IH1 in H as (t & s' & new & -> & L & H & C & P);
      [|intros g Hg; apply HG; right; exact Hg].
    rewrite consumed_append in H.
    exists t, s', ((n, t) :: new). repeat split; auto.
    + intros m u [Hin|Hin]; [|eauto].
      injection Hin as <- <-. exists r1. split; [apply HG; left; reflexivity|exact L].
    + intros m Hm. simpl in Hm. simpl.
      apply orb_true_iff in Hm as [Hm|Hm]; [left; now apply Nat.eqb_eq|right; auto].
Qed.

(** Completeness: where a string of [lang] starts the input and the
    continuation succeeds after it, the run succeeds. *)
Lemma rmatch_complete (r : regex) :
  forall (t s' : string) (caps : captures) (k : string -> captures -> option A),
    lang ic r t ->
    (forall caps', k s' caps' <> None) ->
    rmatch ic r (t ++ s') caps k <> None.
Proof.
  induction r as [|cs|cs|cs|cs|r1 IH1 r2 IH2|r1 IH1 r2 IH2|n r1 IH1];
    intros t s' caps k L Hk; simpl in L; simpl.
  - subst. apply Hk.
  - destruct L as (c & -> & M). simpl. rewrite M. apply Hk.
  - apply star_match_complete; auto.
  - destruct L as [Hne Ht]. destruct t as [|c t]; [contradiction|].
    simpl in Ht. apply andb_true_iff in Ht as [Hc Ht]. simpl. rewrite Hc.
    apply star_match_complete; auto.
  - destruct L as [->|(c & -> & M)]; simpl.
    + destruct s' as [|c s']; [apply Hk|].
      destruct (cs_mem ic cs c); [|apply Hk].
      destruct (k s' caps); [discriminate|apply Hk].
    + rewrite M. destruct (k s' caps) eqn:E; [discriminate|].
      exfalso. exact (Hk caps E).
  - destruct L as (t1 & t2 & -> & L1 & L2). rewrite append_assoc.
    apply IH1; [exact L1|]. intros caps'. apply IH2; auto.
  - destruct (rmatch ic r1 (t ++ s') caps k) eqn:E; [discriminate|].
    destruct L as [L|L]; [|apply IH2; auto].
    exfalso. exact (IH1 _ _ _ _ L Hk E).
  - apply IH1; [exact L|]. intros caps'. apply Hk.
Qed.
End MatcherProperties.

(** ** [re.search]: the leftmost position where the pattern matches *)

Lemma match_here_none (ic : bool) (p : pattern) (pos : nat) (s : string) :
  match_here ic p pos s = None -> ~ matches_at ic (pat_regex p) s.
Proof.
  unfold match_here. intros H (t & rest & -> & L).
  revert H. apply rmatch_complete; [exact L|]. discriminate.
Qed.

Lemma match_here_some (ic : bool) (p : pattern) (pos : nat) (s : string) (m : match_obj) :
  match_here ic p pos s = Some m ->
  matches_at ic (pat_regex p) s /\
  m_start m = pos /\ m_ngroups m = pat_groups p /\
  (forall n u, lookup_cap n (m_caps m) = Some u ->
     exists r1, In (n, r1) (groups_of (pat_regex p)) /\ lang ic r1 u) /\
  (forall n, always_captures n (pat_regex p) = true ->
     exists u, lookup_cap n (m_caps m) = Some u).
Proof.
  unfold match_here. intros H.
  apply (rmatch_sound ic (groups_of (pat_regex p))) in H
    as (t & s' & new & -> & L & H & C & P); [|apply incl_refl].
  injection H as <-. simpl. rewrite app_nil_r.
  split; [exists t, s'; auto|]. repeat split.
  - intros n u. clear P. induction new as [|[i v] new IH]; simpl; [discriminate|].
    destruct (Nat.eqb i n) eqn:E.
    + intros Hu. injection Hu as <-. apply Nat.eqb_eq in E; subst.
      apply C. left. reflexivity.
    + apply IH. intros n' u' Hin. apply C. right. exact Hin.
  - intros n Hn. specialize (P n Hn). clear C.
    induction new as [|[i v] new IH]; simpl in *; [contradiction|].
    destruct (Nat.eqb i n) eqn:E; [eauto|].
    destruct P as [P|P]; [apply Nat.eqb_neq in E; contradiction|auto].
Qed.

Lemma search_from_some (ic : bool) (p : pattern) (s : string) :
  forall (pos : nat) (m : match_obj),
    search_from ic p pos s = Some m ->
    exists i,
      m_start m = (pos + i)%nat /\
      match_here ic p (pos + i) (drop i s) = Some m /\
      forall j, (j < i)%nat -> ~ matches_at ic (pat_regex p) (drop j s).
Proof.
  induction s as [|c s IH]; intros pos m; simpl.
  - destruct (match_here ic p pos EmptyString) as [m'|] eqn:E; [|discriminate].
    intros H. injection H as <-. exists O. rewrite Nat.add_0_r. simpl.
    split; [apply (match_here_some _ _ _ _ _ E)|]. split; [exact E|]. lia.
  - destruct (match_here ic p pos (String c s)) as [m'|] eqn:E.
    + intros H. injection H as <-. exists O. rewrite Nat.add_0_r. simpl.
      split; [apply (match_here_some _ _ _ _ _ E)|]. split; [exact E|]. lia.
    + intros H. destruct (IH _ _ H) as (i & Hs & Hm & Hl).
      exists (S i). rewrite Nat.add_succ_r. simpl. split; [exact Hs|].
      split; [exact Hm|].
      intros [|j] Hj; simpl.
      * exact (match_here_none _ _ _ _ E).
      * apply Hl. lia.
Qed.

Lemma search_from_none (ic : bool) (p : pattern) (s : string) :
  forall pos, search_from ic p pos s = None ->
              forall j, ~ matches_at ic (pat_regex p) (drop j s).
Proof.
  induction s as [|c s IH]; intros pos; simpl.
  - destruct (match_here ic p pos EmptyString) eqn:E; [discriminate|].
    intros _ [|j]; simpl; exact (match_here_none _ _ _ _ E).
  - destruct (match_here ic p pos (String c s)) eqn:E; [discriminate|].
    intros H [|j]; simpl.
    + exact (match_here_none _ _ _ _ E).
    + exact (IH _ H j).
Qed.

(** ** One turn of the extraction loop *)

Lemma extract_one_ok (test : dict) (name pat unit range : string) (p : pattern)
      (text : string) :
  test_ok test name pat unit range p ->
  extract_one test text =
  Ok (option_map (record_of name unit range) (search_from true p 0 text)) /\
  forall m, search_from true p 0 text = Some m ->
            exists v, lookup_cap 1 (m_caps m) = Some v /\ lang true numeric_regex v.
Proof.
  intros [Hn Hp Hu Hr Hparse Hg H1 H2 Hv].
  assert (Caps : forall m, search_from true p 0 text = Some m ->
            m_ngroups m = 2%nat /\
            (exists v, lookup_cap 1 (m_caps m) = Some v /\ lang true numeric_regex v) /\
            (exists u, lookup_cap 2 (m_caps m) = Some u)).
  { intros m Hm. apply search_from_some in Hm as (i & _ & Hm & _).
    apply match_here_some in Hm as (_ & _ & Hng & Hc & Hp').
    rewrite Hg in Hng. split; [exact Hng|]. split.
    - destruct (Hp' 1%nat H1) as [v Hv1]. exists v. split; [exact Hv1|].
      destruct (Hc _ _ Hv1) as (r1 & Hin & L). rewrite (Hv _ Hin) in L. exact L.
    - apply Hp'. exact H2. }
  split.
  - unfold extract_one, getitem, re_search. rewrite Hp; simpl. rewrite Hparse; simpl.
    destruct (search_from true p 0 text) as [m|] eqn:S; [|reflexivity].
    destruct (Caps m eq_refl) as (Hng & (v & Hv1 & _) & (u & Hu2)).
    unfold group, groups_len. rewrite Hng; simpl. rewrite Hv1, Hu2; simpl.
    unfold dict_get. rewrite Hu, Hr, Hn.
    destruct (is_value_out_of_range (Some v) (Some range)) as [b|e] eqn:E.
    + simpl. unfold record_of. rewrite Hv1, E. reflexivity.
    + rewrite is_value_out_of_range_eq in E. discriminate.
  - intros m Hm. apply (Caps m Hm).
Qed.

Lemma catalog_ok :
  Forall (fun test => exists name pat unit range p, test_ok test name pat unit range p)
         LAB_TEST_PATTERNS.
Proof.
  unfold LAB_TEST_PATTERNS.
  repeat (apply Forall_cons;
          [do 5 eexists; constructor;
           [reflexivity|reflexivity|reflexivity|reflexivity
            |vm_compute; reflexivity
            |reflexivity|reflexivity|reflexivity
            |intros r1 Hin; simpl in Hin;
             repeat (destruct Hin as [Hin|Hin];
                     [try discriminate; injection Hin as <-; reflexivity|]);
             contradiction]
          |]).
  apply Forall_nil.
Qed.

(** ** The extraction loop over a well-formed catalog *)

Lemma matches_test_search (test : dict) (name pat unit range : string) (p : pattern)
      (text : string) :
  test_ok test name pat unit range p ->
  matches_test test text =
  match search_from true p 0 text with Some _ => true | None => false end.
Proof.
  intros H. unfold matches_test, getitem, re_search.
  rewrite (ok_pattern _ _ _ _ _ _ H), (ok_parse _ _ _ _ _ _ H). reflexivity.
Qed.

Lemma records_of_ok (test : dict) (name pat unit range : string) (p : pattern)
      (text : string) :
  test_ok test name pat unit range p ->
  records_of test text =
  match search_from true p 0 text with
  | Some m => [record_of name unit range m]
  | None => []
  end.
Proof.
  intros H. unfold records_of.
  rewrite (proj1 (extract_one_ok _ _ _ _ _ _ text H)).
  destruct (search_from true p 0 text); reflexivity.
Qed.

Lemma extract_loop_eq (tests : list dict) (text : string) :
  Forall well_formed tests ->
  forall acc,
    extract_loop tests text acc
    = Ok (acc ++ flat_map (fun test => records_of test text) tests)%list.
Proof.
  induction 1 as [|test tests (name & pat & unit & range & p & Hok) _ IH];
    intros acc; simpl.
  - rewrite app_nil_r. reflexivity.
  - rewrite (records_of_ok _ _ _ _ _ _ text Hok).
    rewrite (proj1 (extract_one_ok _ _ _ _ _ _ text Hok)); simpl.
    rewrite IH. destruct (search_from true p 0 text); simpl.
    + rewrite <- app_assoc. reflexivity.
    + reflexivity.
Qed.

Lemma extract_lab_tests_eq (text : string) :
  extract_lab_tests text
  = Ok (flat_map (fun test => records_of test text) LAB_TEST_PATTERNS).
Proof.
  unfold extract_lab_tests. rewrite (extract_loop_eq _ _ catalog_ok). reflexivity.
Qed.

(** Every record of the loop comes from the leftmost match of one entry. *)
Lemma records_origin (tests : list dict) (text : string) :
  Forall well_formed tests ->
  forall record,
    In record (flat_map (fun test => records_of test text) tests) ->
    exists test name pat unit range p m,
      In test tests /\ test_ok test name pat unit range p /\
      search_from true p 0 text = Some m /\
      record = record_of name unit range m.
Proof.
  induction 1 as [|test tests (name & pat & unit & range & p & Hok) _ IH];
    intros record Hin; simpl in Hin; [contradiction|].
  apply in_app_or in Hin as [Hin|Hin].
  - rewrite (records_of_ok _ _ _ _ _ _ text Hok) in Hin.
    destruct (search_from true p 0 text) as [m|] eqn:S; [|contradiction].
    destruct Hin as [<-|[]].
    exists test, name, pat, unit, range, p, m. simpl; auto.
  - destruct (IH _ Hin) as (t & n' & pa & u & ra & p' & m & Ht & Hrest).
    exists t, n', pa, u, ra, p', m. simpl; auto.
Qed.

Lemma records_names (tests : list dict) (text : string) :
  Forall well_formed tests ->
  map test_name (flat_map (fun test => records_of test text) tests)
  = map name_of (filter (fun test => matches_test test text) tests).
Proof.
  induction 1 as [|test tests (name & pat & unit & range & p & Hok) _ IH];
    simpl; [reflexivity|].
  rewrite map_app, IH, (records_of_ok _ _ _ _ _ _ text Hok),
    (matches_test_search _ _ _ _ _ _ text Hok).
  destruct (search_from true p 0 text); simpl; [|reflexivity].
  unfold name_of. rewrite (ok_name _ _ _ _ _ _ Hok). reflexivity.
Qed.

Lemma NoDup_map_filter {X Y : Type} (f : X -> Y) (g : X -> bool) (l : list X) :
  NoDup (map f l) -> NoDup (map f (filter g l)).
Proof.
  induction l as [|x l IH]; simpl; [auto|].
  intros H. inversion H as [|? ? Hnot Hnd]; subst.
  destruct (g x); simpl; [|auto].
  constructor; [|auto].
  intros Hin. apply Hnot. apply in_map_iff in Hin as (y & Hy & Hf).
  apply in_map_iff. exists y. split; [exact Hy|].
  apply filter_In in Hf. tauto.
Qed.

Lemma catalog_names_distinct : NoDup (map name_of LAB_TEST_PATTERNS).
Proof.
  vm_compute.
  repeat (constructor; [simpl; intuition discriminate|]). constructor.
Qed.

(** What [matches_test] decides: whether the pattern matches at some position
    of the text. *)
Lemma matches_test_meaning (test : dict) (name pat unit range : string)
      (p : pattern) (text : string) :
  test_ok test name pat unit range p ->
  (matches_test test text = true ->
   exists j, matches_at true (pat_regex p) (drop j text)) /\
  (matches_test test text = false ->
   forall j, ~ matches_at true (pat_regex p) (drop j text)).
Proof.
  intros Hok. rewrite (matches_test_search _ _ _ _ _ _ text Hok).
  destruct (search_from true p 0 text) as [m|] eqn:S; split; try discriminate.
  - intros _. apply search_from_some in S as (i & _ & Hm & _).
    exists i. apply (match_here_some _ _ _ _ _ Hm).
  - intros _. exact (search_from_none _ _ _ _ S).
Qed.

(** ** The numeric shape of the captured value *)

Lemma lower_is_point (c : ascii) :
  Ascii.eqb (unicode_lower c) (unicode_lower ".") = true -> c = "."%char.
Proof.
  destruct c as [[] [] [] [] [] [] [] []]; vm_compute; congruence.
Qed.

Lemma lang_numeric_shape (v : string) : lang true numeric_regex v -> numeric_shape v.
Proof.
  simpl. intros (ip & t2 & -> & [Hne Hip] & dot & t4 & -> & Hdot & fp & t6 & -> & Hfp & ->).
  exists ip, dot, fp. rewrite append_nil_r. repeat split; auto.
  destruct Hdot as [->|(c & -> & Hc)]; [left; reflexivity|right].
  apply lower_is_point in Hc. subst. reflexivity.
Qed.

(** ** [float] accepts every string of the numeric shape *)

Lemma numeric_char_facts (c : ascii) :
  numeric_char c = true ->
  (code c <? 128) = true /\ Ascii.eqb "_" c = false /\ Py_ISSPACE c = false.
Proof.
  destruct c as [[] [] [] [] [] [] [] []]; vm_compute; intros H;
    try discriminate; auto.
Qed.

Lemma parse_sign_digit (c : ascii) (s : string) :
  is_digit c = true -> parse_sign (String c s) = (false, String c s).
Proof.
  destruct c as [[] [] [] [] [] [] [] []]; vm_compute; intros H;
    try discriminate; reflexivity.
Qed.

Lemma point_not_digit : is_digit "." = false.
Proof. reflexivity. Qed.

Lemma all_chars_impl (p q : ascii -> bool) (s : string) :
  (forall c, p c = true -> q c = true) ->
  all_chars p s = true -> all_chars q s = true.
Proof.
  intros H. induction s as [|c s IH]; simpl; [auto|].
  intros Hs. apply andb_true_iff in Hs as [Hc Hs].
  rewrite (H _ Hc), (IH Hs). reflexivity.
Qed.

Lemma numeric_shape_chars (v : string) :
  numeric_shape v ->
  all_chars numeric_char v = true /\
  exists c rest, v = String c rest /\ is_digit c = true.
Proof.
  intros (ip & dot & fp & -> & Hne & Hip & Hdot & Hfp). split.
  - rewrite !all_chars_append.
    rewrite (all_chars_impl is_digit numeric_char ip),
      (all_chars_impl is_digit numeric_char fp); auto;
      try (intros c Hc; unfold numeric_char; rewrite Hc; reflexivity).
    destruct Hdot as [->| ->]; reflexivity.
  - destruct ip as [|c ip]; [contradiction|].
    simpl in Hip. apply andb_true_iff in Hip as [Hc _].
    exists c, (ip ++ dot ++ fp). auto.
Qed.

Lemma mem_char_all_chars (a : ascii) (s : string) :
  all_chars (fun c => negb (Ascii.eqb a c)) s = true -> mem_char a s = false.
Proof.
  induction s as [|c s IH]; simpl; [auto|].
  intros H. apply andb_true_iff in H as [Hc Hs].
  apply negb_true_iff in Hc. rewrite Hc, (IH Hs). reflexivity.
Qed.

Lemma rstrip_tail_id (s : string) :
  all_chars (fun c => negb (Py_ISSPACE c)) s = true -> rstrip_tail s = s.
Proof.
  induction s as [|c s IH]; simpl; [auto|].
  intros H. apply andb_true_iff in H as [Hc Hs].
  apply negb_true_iff in Hc. rewrite (IH Hs), Hc.
  destruct s; reflexivity.
Qed.

Lemma span_digits_all (d : string) :
  all_chars is_digit d = true -> span_digits d = (d, EmptyString).
Proof.
  induction d as [|c d IH]; simpl; [auto|].
  intros H. apply andb_true_iff in H as [Hc Hd].
  rewrite Hc, (IH Hd). reflexivity.
Qed.

Lemma span_digits_point (d r : string) :
  all_chars is_digit d = true ->
  span_digits (d ++ String "." r) = (d, String "." r).
Proof.
  induction d as [|c d IH]; simpl; [auto|].
  intros H. apply andb_true_iff in H as [Hc Hd].
  rewrite Hc, (IH Hd). reflexivity.
Qed.

Lemma strtod_numeric (v : string) :
  numeric_shape v -> exists x, strtod v = Some (x, EmptyString).
Proof.
  intros (ip & dot & fp & -> & Hne & Hip & Hdot & Hfp).
  destruct ip as [|c ip]; [contradiction|].
  pose proof Hip as Hip'. simpl in Hip'. apply andb_true_iff in Hip' as [Hc _].
  unfold strtod. simpl append at 1. rewrite (parse_sign_digit _ _ Hc).
  destruct Hdot as [->| ->].
  - change (String c (ip ++ EmptyString ++ fp))
      with (String c ip ++ (EmptyString ++ fp)).
    simpl append at 2.
    rewrite (span_digits_all (String c ip ++ fp))
      by (rewrite all_chars_append, Hip, Hfp; reflexivity).
    simpl. eauto.
  - change (String c (ip ++ "." ++ fp)) with (String c ip ++ String "." fp).
    rewrite (span_digits_point _ _ Hip), (span_digits_all _ Hfp).
    simpl. eauto.
Qed.

Lemma float_of_str_numeric (v : string) :
  numeric_shape v -> exists x, float_of_str v = Ok x.
Proof.
  intros Hv. destruct (strtod_numeric v Hv) as [x Hx]. exists x.
  destruct (numeric_shape_chars v Hv) as (Hall & c & rest & -> & Hc).
  assert (Hascii : all_chars (fun c => code c <? 128) (String c rest) = true)
    by (apply (all_chars_impl numeric_char); [intros a Ha; apply numeric_char_facts, Ha|exact Hall]).
  assert (Hund : mem_char "_" (String c rest) = false).
  { apply mem_char_all_chars, (all_chars_impl numeric_char); [|exact Hall].
    intros a Ha. apply negb_true_iff. apply numeric_char_facts, Ha. }
  assert (Hsp : all_chars (fun c => negb (Py_ISSPACE c)) (String c rest) = true).
  { apply (all_chars_impl numeric_char); [|exact Hall].
    intros a Ha. apply negb_true_iff. apply numeric_char_facts, Ha. }
  unfold float_of_str, transform_decimal_and_space. rewrite Hascii.
  unfold string_to_number_with_underscores. rewrite Hund.
  unfold float_from_string_inner.
  pose proof Hsp as Hsp'. simpl in Hsp'. apply andb_true_iff in Hsp' as [Hc0 Hrest].
  apply negb_true_iff in Hc0.
  cbn [lstrip]. rewrite Hc0. cbn [rstrip]. rewrite (rstrip_tail_id _ Hrest).
  unfold PyOS_string_to_double. rewrite Hx. reflexivity.
Qed.

(** ** The pattern matcher *)

(** C7.  The text [HB ESTIMATION: 10.5 g/dL] gives exactly one record. *)
Theorem extract_lab_tests_hb_estimation :
  extract_lab_tests "HB ESTIMATION: 10.5 g/dL"
  = Ok [ {| test_name := "HB ESTIMATION";
            test_value := Some "10.5";
            bio_reference_range := Some "12.0-15.0";
            test_unit := Some "g/dL";
            lab_test_out_of_range := true |} ].
Proof. vm_compute. reflexivity. Qed.

(** Every entry whose pattern is found in the text has its record in the
    result of the loop. *)
Lemma matched_entry_record (tests : list dict) (text : string) (test : dict) :
  Forall well_formed tests ->
  In test tests ->
  matches_test test text = true ->
  exists name pat unit range p m,
    test_ok test name pat unit range p /\
    search_from true p 0 text = Some m /\
    In (record_of name unit range m)
       (flat_map (fun t => records_of t text) tests).
Proof.
  intros Hall Hin Hm.
  destruct (proj1 (Forall_forall _ _) Hall test Hin)
    as (name & pat & unit & range & p & Hok).
  rewrite (matches_test_search _ _ _ _ _ _ text Hok) in Hm.
  destruct (search_from true p 0 text) as [m|] eqn:S; [|discriminate].
  exists name, pat, unit, range, p, m. split; [exact Hok|]. split; [exact S|].
  apply in_flat_map. exists test. split; [exact Hin|].
  rewrite (records_of_ok _ _ _ _ _ _ text Hok), S. left. reflexivity.
Qed.

(** C4.  [extract_lab_tests] returns on every text.  Every catalog entry
    whose pattern is found in the text has a record in the result, named
    after the entry and carrying, as [test_unit], the entry's own unit; and
    each record of the result comes from such an entry and carries its unit,
    while the text captured by group 2 of the match, which is there, is not
    used. *)
Theorem test_unit_is_canonical (text : string) :
  exists results,
    extract_lab_tests text = Ok results /\
    (forall test,
        In test LAB_TEST_PATTERNS ->
        matches_test test text = true ->
        exists unit record,
          dict_lookup test "unit" = Some unit /\
          In record results /\
          test_name record = name_of test /\
          test_unit record = Some unit) /\
    (forall record, In record results ->
      exists test pat p m unit captured,
        In test LAB_TEST_PATTERNS /\
        matches_test test text = true /\
        test_name record = name_of test /\
        dict_lookup test "pattern" = Some pat /\ re_parse pat = Some p /\
        search_from true p 0 text = Some m /\
        group m 2 = Ok (Some captured) /\
        dict_lookup test "unit" = Some unit /\
        test_unit record = Some unit).
Proof.
  rewrite extract_lab_tests_eq. eexists. split; [reflexivity|]. split.
  - intros test Hin Hm.
    destruct (matched_entry_record _ text test catalog_ok Hin Hm)
      as (name & pat & unit & range & p & m & Hok & _ & Hrec).
    exists unit, (record_of name unit range m).
    split; [exact (ok_unit _ _ _ _ _ _ Hok)|]. split; [exact Hrec|].
    split; [|reflexivity].
    unfold name_of. rewrite (ok_name _ _ _ _ _ _ Hok). reflexivity.
  - intros record Hin.
    apply (records_origin _ _ catalog_ok) in Hin
      as (test & name & pat & unit & range & p & m & Ht & Hok & Hs & ->).
    pose proof Hs as Hm. apply search_from_some in Hm as (i & _ & Hm & _).
    apply match_here_some in Hm as (_ & _ & Hng & _ & Hcap).
    destruct (Hcap 2%nat (ok_second _ _ _ _ _ _ Hok)) as [captured Hc].
    exists test, pat, p, m, unit, captured.
    repeat split; try (destruct Hok; assumption).
    + rewrite (matches_test_search _ _ _ _ _ _ text Hok), Hs. reflexivity.
    + unfold name_of. rewrite (ok_name _ _ _ _ _ _ Hok). reflexivity.
    + unfold group. rewrite Hng, (ok_groups _ _ _ _ _ _ Hok). simpl.
      rewrite Hc. reflexivity.
Qed.

(** C5.  The names of the records are the names of the catalog entries whose
    pattern is found in the text, in catalog order and without repetition;
    the value of each record is group 1 of the match [re.search] returns for
    its entry, which starts at the leftmost position of the text where the
    pattern matches. *)
Theorem extract_lab_tests_catalog_order (text : string) :
  exists results,
    extract_lab_tests text = Ok results /\
    map test_name results
    = map name_of (filter (fun test => matches_test test text) LAB_TEST_PATTERNS) /\
    NoDup (map test_name results) /\
    forall record, In record results ->
      exists test pat p m,
        In test LAB_TEST_PATTERNS /\
        test_name record = name_of test /\
        dict_lookup test "pattern" = Some pat /\ re_parse pat = Some p /\
        search_from true p 0 text = Some m /\
        test_value record = lookup_cap 1 (m_caps m) /\
        matches_at true (pat_regex p) (drop (m_start m) text) /\
        forall j, (j < m_start m)%nat ->
                  ~ matches_at true (pat_regex p) (drop j text).
Proof.
  rewrite extract_lab_tests_eq. eexists. split; [reflexivity|].
  pose proof (records_names _ text catalog_ok) as Hnames.
  split; [exact Hnames|]. split.
  - rewrite Hnames. apply NoDup_map_filter, catalog_names_distinct.
  - intros record Hin.
    apply (records_origin _ _ catalog_ok) in Hin
      as (test & name & pat & unit & range & p & m & Ht & Hok & Hs & ->).
    pose proof Hs as Hm. apply search_from_some in Hm as (i & Hi & Hm & Hleft).
    apply match_here_some in Hm as (Hat & _).
    simpl in Hi. subst i.
    exists test, pat, p, m.
    repeat split; try (destruct Hok; assumption); auto.
    unfold name_of. rewrite (ok_name _ _ _ _ _ _ Hok). reflexivity.
Qed.

(** C10.  [extract_lab_tests] returns on every text; each value it produces
    is a string of digits, possibly followed by a point and further digits,
    and [float] accepts it: inside [is_value_out_of_range] the conversion of
    the value does not fail. *)
Theorem extract_lab_tests_values_numeric (text : string) :
  exists results,
    extract_lab_tests text = Ok results /\
    forall record, In record results ->
      exists v x,
        test_value record = Some v /\ numeric_shape v /\
        float (test_value record) = Ok x.
Proof.
  rewrite extract_lab_tests_eq. eexists. split; [reflexivity|].
  intros record Hin.
  apply (records_origin _ _ catalog_ok) in Hin
    as (test & name & pat & unit & range & p & m & Ht & Hok & Hs & ->).
  destruct (proj2 (extract_one_ok _ _ _ _ _ _ text Hok) m Hs) as (v & Hv & L).
  apply lang_numeric_shape in L.
  destruct (float_of_str_numeric v L) as [x Hx].
  exists v, x. simpl. rewrite Hv. auto.
Qed.

Lemma test_unit_is_canonical_witness :
  exists results record,
    extract_lab_tests "wbc count = 12000 cells/cmm" = Ok results /\
    In record results /\
    test_name record = "WBC COUNT" /\
    test_unit record = Some "/cmm".
Proof.
  destruct (test_unit_is_canonical "wbc count = 12000 cells/cmm")
    as (results & E & Hfound & _).
  destruct (Hfound
              [ ("name", "WBC COUNT");
                ("pattern", "WBC\s+COUNT\s*[:=]?\s*(\d+\.?\d*)\s*(cells/cmm|/cmm)");
                ("unit", "/cmm");
                ("reference_range", "4000-11000") ])
    as (unit & record & Hu & Hin & Hn & Hunit).
  - do 3 right. left. reflexivity.
  - vm_compute. reflexivity.
  - exists results, record. split; [exact E|]. split; [exact Hin|].
    split; [exact Hn|]. rewrite Hunit. vm_compute in Hu. rewrite Hu. reflexivity.
Defined.

Lemma extract_lab_tests_catalog_order_witness :
  exists results,
    extract_lab_tests "PLATELET COUNT: 2.5 lakhs/cmm; HB ESTIMATION: 13.0 g/dL"
    = Ok results /\
    map test_name results = ["HB ESTIMATION"; "PLATELET COUNT"].
Proof.
  destruct (extract_lab_tests_catalog_order
              "PLATELET COUNT: 2.5 lakhs/cmm; HB ESTIMATION: 13.0 g/dL")
    as (results & E & N & _).
  exists results. split; [exact E|exact N].
Defined.

Lemma extract_lab_tests_values_numeric_witness :
  exists results,
    extract_lab_tests "RBC COUNT 5.1 million/cmm" = Ok results /\
    forall record, In record results ->
      exists v x, test_value record = Some v /\ numeric_shape v /\
                  float (test_value record) = Ok x.
Proof.
  exact (extract_lab_tests_values_numeric "RBC COUNT 5.1 million/cmm").
Defined.

(** The unit written in the text may differ from the one reported. *)
Example captured_unit_is_dropped :
  extract_lab_tests "wbc count = 12000 cells/cmm"
  = Ok [ {| test_name := "WBC COUNT";
            test_value := Some "12000";
            bio_reference_range := Some "4000-11000";
            test_unit := Some "/cmm";
            lab_test_out_of_range := true |} ].
Proof. vm_compute. reflexivity. Qed.

(** Records follow the catalog, not the text. *)
Example platelet_before_hb :
  option_map (map test_name)
    (match extract_lab_tests "PLATELET COUNT: 2.5 lakhs/cmm
HB ESTIMATION: 13.0 g/dL" with Ok l => Some l | Raise _ => None end)
  = Some ["HB ESTIMATION"; "PLATELET COUNT"].
Proof. vm_compute. reflexivity. Qed.

Example pcv_within_range :
  extract_lab_tests "PCV (PACKED CELL VOLUME) = 40 %"
  = Ok [ {| test_name := "PCV (PACKED CELL VOLUME)";
            test_value := Some "40";
            bio_reference_range := Some "36.0-46.0";
            test_unit := Some "%";
            lab_test_out_of_range := false |} ].
Proof. vm_compute. reflexivity. Qed.

(** ** The request handler *)

(** C3.  When no pattern of the catalog is found in the recognized text,
    [extract_lab_tests] returns the empty list and the handler raises
    nothing: it returns a response whose data is the empty list (marked
    [is_success = false], with a message saying that no test was
    identified). *)
Theorem no_match_is_not_an_error
  (pil_image : Type) (gray_of_bgr : Z * Z * Z -> Z) (otsu_level : gray_image -> Z)
  (cv2_imdecode : list Z -> lib_result (option color_image))
  (empty_image_msg : string)
  (Image_fromarray : gray_image -> lib_result pil_image)
  (image_to_string : pil_image -> lib_result string)
  (file : upload) (ct text : string) :
  content_type file = Some ct ->
  prefix "image/" ct = true ->
  extract_text_from_image pil_image gray_of_bgr otsu_level cv2_imdecode
    empty_image_msg Image_fromarray image_to_string (contents file) = Done text ->
  forallb (fun test => negb (matches_test test text)) LAB_TEST_PATTERNS = true ->
  extract_lab_tests text = Ok [] /\
  get_lab_tests pil_image gray_of_bgr otsu_level cv2_imdecode
    empty_image_msg Image_fromarray image_to_string (Some file)
  = Done {| is_success := false;
            message := Some "No lab tests could be identified in the image";
            data := [] |}.
Proof.
  intros Hct Hpre Htext Hnone.
  assert (E : extract_lab_tests text = Ok []).
  { rewrite extract_lab_tests_eq. f_equal.
    pose proof catalog_ok as Hok. revert Hok Hnone.
    generalize LAB_TEST_PATTERNS as tests.
    induction tests as [|test tests IH]; cbn [flat_map forallb]; [reflexivity|].
    intros Hok Hnone. inversion Hok as [|? ? (name & pat & unit & range & p & Ht) Hrest]; subst.
    apply andb_true_iff in Hnone as [Hn Hnone]. apply negb_true_iff in Hn.
    rewrite (IH Hrest Hnone), app_nil_r.
    rewrite (records_of_ok _ _ _ _ _ _ text Ht).
    rewrite (matches_test_search _ _ _ _ _ _ text Ht) in Hn.
    destruct (search_from true p 0 text); [discriminate|reflexivity]. }
  split; [exact E|].
  unfold get_lab_tests. rewrite Hct, Hpre. cbn [negb]. rewrite Htext, E. reflexivity.
Qed.

Lemma no_match_is_not_an_error_witness :
  extract_lab_tests "Patient: J. Doe, no results on this page" = Ok [] /\
  get_lab_tests gray_image sample_gray sample_otsu sample_imdecode
    "empty image" sample_fromarray
    (sample_ocr "Patient: J. Doe, no results on this page")
    (Some {| content_type := Some "image/png"; contents := [137; 80; 78; 71] |})
  = Done {| is_success := false;
            message := Some "No lab tests could be identified in the image";
            data := [] |}.
Proof.
  apply (no_match_is_not_an_error gray_image sample_gray sample_otsu
           sample_imdecode "empty image" sample_fromarray
           (sample_ocr "Patient: J. Doe, no results on this page")
           {| content_type := Some "image/png"; contents := [137; 80; 78; 71] |}
           "image/png" "Patient: J. Doe, no results on this page");
    reflexivity.
Defined.


(** * Further properties of the program *)

(** ** The range evaluator at its edges *)

Ltac cmp_cases :=
  repeat match goal with
         | |- context [Pos.compare_cont Eq ?a ?b] =>
             change (Pos.compare_cont Eq a b) with (Pos.compare a b)
         | H : context [Pos.compare_cont Eq ?a ?b] |- _ =>
             change (Pos.compare_cont Eq a b) with (Pos.compare a b) in H
         end;
  repeat match goal with
         | H : context [Z.compare ?a ?b] |- _ => destruct (Z.compare_spec a b)
         | |- context [Z.compare ?a ?b] => destruct (Z.compare_spec a b)
         | H : context [Pos.compare ?a ?b] |- _ => destruct (Pos.compare_spec a b)
         | |- context [Pos.compare ?a ?b] => destruct (Pos.compare_spec a b)
         end.

(** When the upper bound is below the lower one, every number is below the
    lower bound or above the upper one. *)
Lemma flt_inverted (lo hi v : pyfloat) :
  flt hi lo = true -> v <> S754_nan -> flt v lo || flt hi v = true.
Proof.
  unfold flt, SFltb.
  destruct lo as [s1|s1| |s1 m1 e1], hi as [s2|s2| |s2 m2 e2], v as [s3|s3| |s3 m3 e3];
    simpl; intros H Hv; try congruence;
    try (destruct s1, s2, s3; simpl in *; congruence).
  all: destruct s1, s2, s3; simpl in *; try congruence.
  all: cmp_cases; simpl in *; try congruence; try lia.
Qed.

Lemma flt_nan_l (x : pyfloat) : flt S754_nan x = false.
Proof. reflexivity. Qed.

Lemma flt_nan_r (x : pyfloat) : flt x S754_nan = false.
Proof. destruct x; reflexivity. Qed.

Lemma unpack_one_raises (p0 : string) :
  unpack_two_floats [p0] = Raise ValueError.
Proof.
  simpl. destruct (float_of_str p0) as [x|e] eqn:E; simpl; [reflexivity|].
  apply float_of_str_exn in E. subst. reflexivity.
Qed.

(** X1.  A range string without any [-], the empty default among them, flags
    nothing: whatever the value is, a string or [None], the answer is
    [false]. *)
Theorem range_without_dash_flags_nothing (value : option string) (range : string) :
  mem_char "-" range = false ->
  is_value_out_of_range value (Some range) = Ok false.
Proof.
  intros H. unfold is_value_out_of_range, split_range.
  cbn [bind]. rewrite (split_no_sep _ _ H), unpack_one_raises. reflexivity.
Qed.

Lemma range_without_dash_flags_nothing_witness :
  is_value_out_of_range (Some "99") (Some "") = Ok false /\
  is_value_out_of_range None (Some "12.0") = Ok false.
Proof.
  split.
  - apply (range_without_dash_flags_nothing (Some "99") ""). reflexivity.
  - apply (range_without_dash_flags_nothing None "12.0"). reflexivity.
Defined.

(** X2.  The handler of [is_value_out_of_range] does not cover [TypeError]:
    with [None] as the value and a range that unpacks into two numbers the
    [TypeError] of [float(None)] leaves the function; with a range that does
    not unpack the answer is [false], since the range is read first; and with
    [None] as the range the answer is [false] for every value. *)
Theorem none_arguments (range : string) :
  (forall lo hi,
      unpack_two_floats (split "-" range) = Ok (lo, hi) ->
      is_value_out_of_range None (Some range) = Raise TypeError) /\
  ((exists e, unpack_two_floats (split "-" range) = Raise e) ->
   is_value_out_of_range None (Some range) = Ok false) /\
  (forall value, is_value_out_of_range value None = Ok false).
Proof.
  unfold is_value_out_of_range, split_range. cbn [bind]. repeat split.
  - intros lo hi H. rewrite H. reflexivity.
  - intros [e H]. rewrite H. apply unpack_two_floats_exn in H. subst. reflexivity.
Qed.

Lemma none_arguments_witness :
  is_value_out_of_range None (Some "12.0-15.0") = Raise TypeError /\
  is_value_out_of_range None (Some "12.0-high") = Ok false /\
  is_value_out_of_range (Some "13") None = Ok false.
Proof.
  split; [|split].
  - eapply (proj1 (none_arguments "12.0-15.0")). reflexivity.
  - apply (proj1 (proj2 (none_arguments "12.0-high"))).
    exists ValueError. reflexivity.
  - apply (proj2 (proj2 (none_arguments ""))).
Defined.

(** X3.  A value that [float] reads as not-a-number is never out of range,
    whatever the range is. *)
Theorem nan_is_never_out_of_range (value : string) (range : option string) :
  float_of_str value = Ok S754_nan ->
  is_value_out_of_range (Some value) range = Ok false.
Proof.
  intros H. destruct range as [range|]; [|reflexivity].
  rewrite is_value_out_of_range_eq, H.
  destruct (unpack_two_floats _) as [[lo hi]|]; [|reflexivity].
  rewrite flt_nan_l, flt_nan_r. reflexivity.
Qed.

Lemma nan_is_never_out_of_range_witness :
  is_value_out_of_range (Some "NaN") (Some "12.0-15.0") = Ok false.
Proof.
  apply (nan_is_never_out_of_range "NaN" (Some "12.0-15.0")). reflexivity.
Defined.

(** X4.  With a range whose first number is above the second, every value
    that [float] reads as a number is out of range. *)
Theorem inverted_range_flags_every_number
  (value range : string) (lo hi v : pyfloat) :
  unpack_two_floats (split "-" range) = Ok (lo, hi) ->
  flt hi lo = true ->
  float_of_str value = Ok v -> v <> S754_nan ->
  is_value_out_of_range (Some value) (Some range) = Ok true.
Proof.
  intros Hr Hinv Hv Hn. rewrite is_value_out_of_range_eq, Hr, Hv.
  rewrite (flt_inverted _ _ _ Hinv Hn). reflexivity.
Qed.

Lemma inverted_range_flags_every_number_witness :
  is_value_out_of_range (Some "13.0") (Some "15.0-12.0") = Ok true.
Proof.
  eapply (inverted_range_flags_every_number "13.0" "15.0-12.0");
    try reflexivity.
  discriminate.
Defined.

(** ** Records and the catalog *)

Lemma catalog_ranges :
  Forall (fun test =>
            exists range lo hi,
              dict_lookup test "reference_range" = Some range /\
              unpack_two_floats (split "-" range) = Ok (lo, hi) /\
              fle lo hi = true)
         LAB_TEST_PATTERNS.
Proof.
  unfold LAB_TEST_PATTERNS.
  repeat (apply Forall_cons;
          [do 3 eexists; split; [reflexivity|];
           split; [vm_compute; reflexivity|vm_compute; reflexivity]|]).
  apply Forall_nil.
Qed.

Lemma records_count (tests : list dict) (text : string) :
  (List.length (flat_map (fun test => records_of test text) tests)
   <= List.length tests)%nat.
Proof.
  induction tests as [|test tests IH]; cbn [flat_map List.length]; [lia|].
  rewrite length_app. unfold records_of at 1.
  destruct (extract_one test text) as [[record|]|e]; simpl; lia.
Qed.

(** X5.  In every record of [extract_lab_tests] the reference range is the
    one of the catalog entry the record is named after; that range unpacks
    into two numbers, the first not above the second; the value is a string
    [float] reads; and the flag is [true] exactly when the value is below the
    first number or above the second.  No record is flagged, or left
    unflagged, through the failure branch of the range evaluator. *)
Theorem records_agree_with_catalog (text : string) :
  exists results,
    extract_lab_tests text = Ok results /\
    forall record, In record results ->
      exists test range lo hi v x,
        In test LAB_TEST_PATTERNS /\
        test_name record = name_of test /\
        dict_lookup test "reference_range" = Some range /\
        bio_reference_range record = Some range /\
        unpack_two_floats (split "-" range) = Ok (lo, hi) /\
        fle lo hi = true /\
        test_value record = Some v /\
        float_of_str v = Ok x /\
        lab_test_out_of_range record = flt x lo || flt hi x.
Proof.
  rewrite extract_lab_tests_eq. eexists. split; [reflexivity|].
  intros record Hin.
  apply (records_origin _ _ catalog_ok) in Hin
    as (test & name & pat & unit & range & p & m & Ht & Hok & Hs & ->).
  destruct (proj1 (Forall_forall _ _) catalog_ranges test Ht)
    as (range' & lo & hi & Hr & Hu & Hle).
  rewrite (ok_range _ _ _ _ _ _ Hok) in Hr. injection Hr as <-.
  destruct (proj2 (extract_one_ok _ _ _ _ _ _ text Hok) m Hs) as (v & Hv & L).
  destruct (float_of_str_numeric v (lang_numeric_shape v L)) as [x Hx].
  exists test, range, lo, hi, v, x.
  unfold record_of; cbn [test_name bio_reference_range test_value lab_test_out_of_range].
  rewrite Hv, is_value_out_of_range_eq, Hu, Hx.
  repeat split; auto.
  - unfold name_of. rewrite (ok_name _ _ _ _ _ _ Hok). reflexivity.
  - exact (ok_range _ _ _ _ _ _ Hok).
Qed.

Lemma records_agree_with_catalog_witness :
  exists results,
    extract_lab_tests "WBC COUNT: 12500 /cmm" = Ok results /\
    forall record, In record results ->
      bio_reference_range record = Some "4000-11000" /\
      lab_test_out_of_range record = true.
Proof.
  destruct (records_agree_with_catalog "WBC COUNT: 12500 /cmm") as (results & E & _).
  exists results. split; [exact E|].
  vm_compute in E. injection E as <-.
  intros record [<-|[]]. split; reflexivity.
Defined.

(** ** The request handler *)

Lemma extract_text_from_image_outcome
  (pil_image : Type) (gray_of_bgr : Z * Z * Z -> Z) (otsu_level : gray_image -> Z)
  (cv2_imdecode : list Z -> lib_result (option color_image))
  (empty_image_msg : string)
  (Image_fromarray : gray_image -> lib_result pil_image)
  (image_to_string : pil_image -> lib_result string)
  (image_data : list Z) :
  (exists text,
      extract_text_from_image pil_image gray_of_bgr otsu_level cv2_imdecode
        empty_image_msg Image_fromarray image_to_string image_data = Done text) \/
  (exists msg,
      extract_text_from_image pil_image gray_of_bgr otsu_level cv2_imdecode
        empty_image_msg Image_fromarray image_to_string image_data
      = HTTPException 500 ("Error processing image: " ++ msg)).
Proof.
  unfold extract_text_from_image.
  match goal with
  | |- context [match ?b with LOk _ => _ | LRaise _ => _ end] => destruct b
  end; eauto.
Qed.

(** X6.  For an upload with a content type, [get_lab_tests] ends in one of
    three ways and lets no other exception through.  It raises
    [HTTPException] 400 exactly when the content type does not start with
    [image/]; it raises [HTTPException] 500, with a detail that starts with
    [Error processing image: ], when the text extraction fails; otherwise it
    returns the records [extract_lab_tests] finds in the recognized text, at
    most five, with [is_success] true exactly when there is a record and a
    message exactly when there is none. *)
Theorem get_lab_tests_outcomes
  (pil_image : Type) (gray_of_bgr : Z * Z * Z -> Z) (otsu_level : gray_image -> Z)
  (cv2_imdecode : list Z -> lib_result (option color_image))
  (empty_image_msg : string)
  (Image_fromarray : gray_image -> lib_result pil_image)
  (image_to_string : pil_image -> lib_result string)
  (file : upload) (ct : string) :
  content_type file = Some ct ->
  match get_lab_tests pil_image gray_of_bgr otsu_level cv2_imdecode
          empty_image_msg Image_fromarray image_to_string (Some file) with
  | Done env =>
      prefix "image/" ct = true /\
      (exists text,
          extract_text_from_image pil_image gray_of_bgr otsu_level cv2_imdecode
            empty_image_msg Image_fromarray image_to_string (contents file)
          = Done text /\
          extract_lab_tests text = Ok (data env)) /\
      (List.length (data env) <= 5)%nat /\
      (is_success env = true <-> data env <> []) /\
      (message env = None <-> data env <> [])
  | HTTPException status detail =>
      (status = 400 /\ prefix "image/" ct = false /\
       detail = "Uploaded file is not an image") \/
      (status = 500 /\ prefix "image/" ct = true /\
       exists msg, detail = "Error processing image: " ++ msg)
  | Uncaught _ => False
  end.
Proof.
  intros Hct. unfold get_lab_tests. rewrite Hct.
  destruct (prefix "image/" ct) eqn:P; cbn [negb]; [|left; auto].
  destruct (extract_text_from_image_outcome pil_image gray_of_bgr otsu_level
              cv2_imdecode empty_image_msg Image_fromarray image_to_string
              (contents file)) as [[text E]|[msg E]]; rewrite E.
  - rewrite extract_lab_tests_eq.
    pose proof (records_count LAB_TEST_PATTERNS text) as Hlen.
    destruct (flat_map _ LAB_TEST_PATTERNS) as [|record records] eqn:F;
      cbn [data is_success message].
    + split; [reflexivity|]. split; [exists text; rewrite extract_lab_tests_eq, F; auto|].
      split; [simpl; lia|]. split; split; congruence.
    + split; [reflexivity|]. split; [exists text; rewrite extract_lab_tests_eq, F; auto|].
      split; [exact Hlen|]. split; split; congruence.
  - right. eauto.
Qed.

Lemma get_lab_tests_outcomes_witness :
  get_lab_tests gray_image sample_gray sample_otsu sample_imdecode
    "empty image" sample_fromarray (sample_ocr "RBC COUNT 5.1 million/cmm")
    (Some {| content_type := Some "text/plain"; contents := [137] |})
  = HTTPException 400 "Uploaded file is not an image".
Proof.
  pose proof (get_lab_tests_outcomes gray_image sample_gray sample_otsu
                sample_imdecode "empty image" sample_fromarray
                (sample_ocr "RBC COUNT 5.1 million/cmm")
                {| content_type := Some "text/plain"; contents := [137] |}
                "text/plain" eq_refl) as H.
  destruct (get_lab_tests _ _ _ _ _ _ _ _) as [env|status detail|e].
  - destruct H as [H _]. discriminate H.
  - destruct H as [(-> & _ & ->)|(_ & H & _)]; [reflexivity|discriminate H].
  - contradiction.
Defined.

(** ** What a text must hold to give a record *)

Lemma has_digit_append_l (a b : string) :
  has_digit a = true -> has_digit (a ++ b) = true.
Proof.
  induction a as [|c a IH]; simpl; [discriminate|].
  intros H. apply orb_true_iff in H as [H|H]; [rewrite H; reflexivity|].
  rewrite (IH H). apply orb_true_r.
Qed.

Lemma has_digit_append_r (a b : string) :
  has_digit b = true -> has_digit (a ++ b) = true.
Proof.
  intros H. induction a as [|c a IH]; simpl; [exact H|].
  rewrite IH. apply orb_true_r.
Qed.

Lemma has_digit_drop (j : nat) (s : string) :
  has_digit (drop j s) = true -> has_digit s = true.
Proof.
  revert s. induction j as [|j IH]; intros s; simpl; [auto|].
  destruct s as [|c s]; [auto|].
  intros H. simpl. rewrite (IH _ H). apply orb_true_r.
Qed.

Lemma lang_requires_digit (ic : bool) (r : regex) :
  requires_digit r = true ->
  forall t, lang ic r t -> has_digit t = true.
Proof.
  induction r as [|cs|cs|cs|cs|r1 IH1 r2 IH2|r1 IH1 r2 IH2|n r1 IH1];
    simpl; intros H t L; try discriminate.
  - destruct cs; try discriminate.
    destruct L as (c & -> & M). simpl in *. rewrite M. reflexivity.
  - destruct cs; try discriminate.
    destruct L as [Hne Hall]. destruct t as [|c t]; [contradiction|].
    simpl in *. apply andb_true_iff in Hall as [M _]. rewrite M. reflexivity.
  - destruct L as (t1 & t2 & -> & L1 & L2).
    apply orb_true_iff in H as [H|H].
    + apply has_digit_append_l. auto.
    + apply has_digit_append_r. auto.
  - apply andb_true_iff in H as [H1 H2]. destruct L as [L|L]; auto.
  - auto.
Qed.

Lemma catalog_requires_digit :
  Forall (fun test =>
            exists pat p,
              dict_lookup test "pattern" = Some pat /\ re_parse pat = Some p /\
              requires_digit (pat_regex p) = true)
         LAB_TEST_PATTERNS.
Proof.
  unfold LAB_TEST_PATTERNS.
  repeat (apply Forall_cons;
          [do 2 eexists; split; [reflexivity|];
           split; [vm_compute; reflexivity|reflexivity]|]).
  apply Forall_nil.
Qed.

(** X7.  Every pattern of the catalog asks for a digit: on a text without
    any digit [extract_lab_tests] returns the empty list. *)
Theorem no_digit_no_record (text : string) :
  has_digit text = false -> extract_lab_tests text = Ok [].
Proof.
  intros Hd. rewrite extract_lab_tests_eq. f_equal.
  pose proof catalog_ok as Hok. pose proof catalog_requires_digit as Hreq.
  revert Hok Hreq. generalize LAB_TEST_PATTERNS as tests.
  induction tests as [|test tests IH]; cbn [flat_map]; [reflexivity|].
  intros Hok Hreq.
  inversion Hok as [|? ? (name & pat & unit & range & p & Ht) Hok']; subst.
  inversion Hreq as [|? ? (pat' & p' & Hp & Hparse & Hr) Hreq']; subst.
  rewrite (IH Hok' Hreq'), app_nil_r, (records_of_ok _ _ _ _ _ _ text Ht).
  rewrite (ok_pattern _ _ _ _ _ _ Ht) in Hp. injection Hp as <-.
  rewrite (ok_parse _ _ _ _ _ _ Ht) in Hparse. injection Hparse as <-.
  destruct (search_from true p 0 text) as [m|] eqn:S; [|reflexivity].
  exfalso.
  apply search_from_some in S as (i & _ & Hm & _).
  apply match_here_some in Hm as ((t & rest & E & L) & _).
  apply (lang_requires_digit _ _ Hr) in L.
  assert (D : has_digit text = true)
    by (apply (has_digit_drop i); rewrite E; apply has_digit_append_l, L).
  congruence.
Qed.

Lemma no_digit_no_record_witness :
  extract_lab_tests "HB ESTIMATION: pending g/dL" = Ok [].
Proof.
  apply (no_digit_no_record "HB ESTIMATION: pending g/dL"). reflexivity.
Defined.

(** ** Text around a report *)

Lemma matches_at_append (ic : bool) (r : regex) (post : string) :
  forall (text : string) (j : nat),
    matches_at ic r (drop j text) ->
    exists j', matches_at ic r (drop j' (text ++ post)).
Proof.
  induction text as [|c text IH]; intros j (t & rest & E & L).
  - assert (drop j EmptyString = EmptyString) as D by (destruct j; reflexivity).
    rewrite D in E. destruct t; [|discriminate].
    exists O. exists EmptyString, (EmptyString ++ post). auto.
  - destruct j as [|j]; simpl in E.
    + exists O. exists t, (rest ++ post). simpl drop.
      rewrite <- append_assoc, <- E. auto.
    + destruct (IH j) as [j' H]; [exists t, rest; auto|].
      exists (S j'). exact H.
Qed.

Lemma matches_at_prepend (ic : bool) (r : regex) (pre text : string) (j : nat) :
  matches_at ic r (drop j text) ->
  matches_at ic r (drop (String.length pre + j) (pre ++ text)).
Proof.
  induction pre as [|c pre IH]; simpl; auto.
Qed.

Lemma matches_test_context (test : dict) (pre text post : string) :
  well_formed test ->
  matches_test test text = true ->
  matches_test test (pre ++ text ++ post) = true.
Proof.
  intros (name & pat & unit & range & p & Hok) H.
  destruct (proj1 (matches_test_meaning _ _ _ _ _ _ text Hok) H) as [j Hj].
  destruct (matches_at_append _ _ post _ _ Hj) as [j' Hj'].
  apply (matches_at_prepend _ _ pre) in Hj'.
  destruct (matches_test test (pre ++ text ++ post)) eqn:E; [reflexivity|].
  exfalso.
  exact (proj2 (matches_test_meaning _ _ _ _ _ _ _ Hok) E _ Hj').
Qed.

Lemma matched_names_context (tests : list dict) (pre text post : string) :
  Forall well_formed tests ->
  incl (map name_of (filter (fun test => matches_test test text) tests))
       (map name_of (filter (fun test => matches_test test (pre ++ text ++ post))
                       tests)).
Proof.
  induction 1 as [|test tests Hwf _ IH]; cbn [filter]; [apply incl_refl|].
  destruct (matches_test test text) eqn:E.
  - rewrite (matches_test_context _ pre _ post Hwf E). cbn [map].
    intros name [<-|Hin]; [left; reflexivity|right; apply IH, Hin].
  - destruct (matches_test test (pre ++ text ++ post)); cbn [map];
      [apply incl_tl|]; exact IH.
Qed.

(** X8.  Text written before or after a report loses no test: every name
    [extract_lab_tests] reports for a text is also reported for that text
    with anything around it. *)
Theorem extraction_survives_context (pre text post : string) :
  exists inner outer,
    extract_lab_tests text = Ok inner /\
    extract_lab_tests (pre ++ text ++ post) = Ok outer /\
    incl (map test_name inner) (map test_name outer).
Proof.
  rewrite !extract_lab_tests_eq. do 2 eexists.
  split; [reflexivity|]. split; [reflexivity|].
  rewrite !(records_names _ _ catalog_ok).
  apply matched_names_context, catalog_ok.
Qed.

Lemma extraction_survives_context_witness :
  exists inner outer,
    extract_lab_tests "RBC COUNT 5.1 million/cmm" = Ok inner /\
    extract_lab_tests ("Report 7: " ++ "RBC COUNT 5.1 million/cmm" ++ " (end)")
    = Ok outer /\
    incl (map test_name inner) (map test_name outer).
Proof.
  exact (extraction_survives_context "Report 7: " "RBC COUNT 5.1 million/cmm" " (end)").
Defined.

(** ** The case of the letters *)

Section CaseChange.
Variable f : ascii -> ascii.
Hypothesis f_lower : forall c, unicode_lower (f c) = unicode_lower c.
Hypothesis f_digit : forall c, is_digit (f c) = is_digit c.
Hypothesis f_space : forall c, Py_UNICODE_ISSPACE (f c) = Py_UNICODE_ISSPACE c.
Hypothesis f_numeric : forall c, numeric_char c = true -> f c = c.

Lemma cs_mem_case : forall (cs : charset) (c : ascii),
    cs_mem true cs (f c) = cs_mem true cs c.
Proof.
  fix IH 1. intros [p| | |members] c; simpl.
  - rewrite f_lower. reflexivity.
  - apply f_digit.
  - apply f_space.
  - induction members as [|m ms IHm]; simpl; [reflexivity|].
    rewrite IH, IHm. reflexivity.
Qed.

Lemma length_smap (s : string) : String.length (smap f s) = String.length s.
Proof. induction s as [|c s IH]; simpl; [reflexivity|now rewrite IH]. Qed.

Lemma substring_smap (s : string) :
  forall n m, substring n m (smap f s) = smap f (substring n m s).
Proof.
  induction s as [|c s IH]; intros [|n] [|m]; simpl; try reflexivity.
  - rewrite IH. reflexivity.
  - apply IH.
  - apply IH.
Qed.

Lemma consumed_smap (s s' : string) :
  consumed (smap f s) (smap f s') = smap f (consumed s s').
Proof.
  unfold consumed. rewrite !length_smap. apply substring_smap.
Qed.

Lemma star_match_case {A B : Type} (g : A -> B) (cs : charset)
      (k : string -> option A) (k' : string -> option B) :
  (forall s', k' (smap f s') = option_map g (k s')) ->
  forall s, star_match true cs (smap f s) k' = option_map g (star_match true cs s k).
Proof.
  intros Hk. induction s as [|c s IH]; simpl; [apply (Hk EmptyString)|].
  rewrite cs_mem_case. destruct (cs_mem true cs c); [|apply (Hk (String c s))].
  rewrite IH. destruct (star_match true cs s k); [reflexivity|].
  apply (Hk (String c s)).
Qed.

Lemma rmatch_case {A B : Type} (g : A -> B) (r : regex) :
  forall (s : string) (caps : captures)
         (k : string -> captures -> option A)
         (k' : string -> captures -> option B),
    (forall s' caps', k' (smap f s') (cmap f caps') = option_map g (k s' caps')) ->
    rmatch true r (smap f s) (cmap f caps) k' = option_map g (rmatch true r s caps k).
Proof.
  induction r as [|cs|cs|cs|cs|r1 IH1 r2 IH2|r1 IH1 r2 IH2|n r1 IH1];
    intros s caps k k' Hk; simpl.
  - apply Hk.
  - destruct s as [|c s]; simpl; [reflexivity|].
    rewrite cs_mem_case. destruct (cs_mem true cs c); [apply Hk|reflexivity].
  - apply (star_match_case g). intros s'. apply Hk.
  - destruct s as [|c s]; simpl; [reflexivity|].
    rewrite cs_mem_case. destruct (cs_mem true cs c); [|reflexivity].
    apply (star_match_case g). intros s'. apply Hk.
  - destruct s as [|c s]; simpl; [apply (Hk EmptyString)|].
    rewrite cs_mem_case. destruct (cs_mem true cs c); [|apply (Hk (String c s))].
    rewrite Hk. destruct (k s caps); [reflexivity|apply (Hk (String c s))].
  - apply IH1. intros s' caps'. apply IH2. exact Hk.
  - rewrite (IH1 _ _ k k' Hk). destruct (rmatch true r1 s caps k); [reflexivity|].
    apply IH2. exact Hk.
  - apply IH1. intros s' caps'. rewrite consumed_smap. apply (Hk s' ((n, _) :: caps')).
Qed.

Lemma match_here_case (p : pattern) (pos : nat) (s : string) :
  match_here true p pos (smap f s) = option_map (mmap f) (match_here true p pos s).
Proof.
  unfold match_here. apply (rmatch_case (mmap f) _ s []).
  intros s' caps'. rewrite !length_smap. reflexivity.
Qed.

Lemma search_from_case (p : pattern) (s : string) :
  forall pos,
    search_from true p pos (smap f s) = option_map (mmap f) (search_from true p pos s).
Proof.
  induction s as [|c s IH]; intros pos.
  - pose proof (match_here_case p pos EmptyString) as H. cbn [smap] in H.
    cbn [smap search_from]. rewrite H at 1.
    destruct (match_here true p pos EmptyString); reflexivity.
  - pose proof (match_here_case p pos (String c s)) as H. cbn [smap] in H.
    cbn [smap search_from]. rewrite H.
    destruct (match_here true p pos (String c s)); [reflexivity|]. apply IH.
Qed.

Lemma lookup_cap_cmap (n : nat) (caps : captures) :
  lookup_cap n (cmap f caps) = option_map (smap f) (lookup_cap n caps).
Proof.
  induction caps as [|[i t] caps IH]; simpl; [reflexivity|].
  destruct (Nat.eqb i n); [reflexivity|exact IH].
Qed.

Lemma smap_numeric (v : string) :
  all_chars numeric_char v = true -> smap f v = v.
Proof.
  induction v as [|c v IH]; simpl; [reflexivity|].
  intros H. apply andb_true_iff in H as [Hc Hv].
  rewrite (f_numeric _ Hc), (IH Hv). reflexivity.
Qed.

Lemma records_of_case (test : dict) (text : string) :
  well_formed test ->
  records_of test (smap f text) = records_of test text.
Proof.
  intros (name & pat & unit & range & p & Hok).
  rewrite !(records_of_ok _ _ _ _ _ _ _ Hok), search_from_case.
  destruct (search_from true p 0 text) as [m|] eqn:S; [|reflexivity].
  destruct (proj2 (extract_one_ok _ _ _ _ _ _ text Hok) m S) as (v & Hv & L).
  cbn [option_map]. f_equal. unfold record_of, mmap; cbn [m_caps].
  rewrite lookup_cap_cmap, Hv. cbn [option_map].
  rewrite (smap_numeric v);
    [reflexivity|apply numeric_shape_chars, lang_numeric_shape, L].
Qed.

Lemma flat_map_records_case (tests : list dict) (text : string) :
  Forall well_formed tests ->
  flat_map (fun test => records_of test (smap f text)) tests
  = flat_map (fun test => records_of test text) tests.
Proof.
  induction 1 as [|test tests Hwf _ IH]; cbn [flat_map]; [reflexivity|].
  rewrite (records_of_case _ _ Hwf), IH. reflexivity.
Qed.

Lemma extract_lab_tests_case (text : string) :
  extract_lab_tests (smap f text) = extract_lab_tests text.
Proof.
  rewrite !extract_lab_tests_eq, (flat_map_records_case _ _ catalog_ok).
  reflexivity.
Qed.
End CaseChange.

(** X9.  Matching ignores the case of the letters: with every ASCII letter
    of the text put in upper case, or every one in lower case,
    [extract_lab_tests] returns the same records. *)
Theorem extraction_ignores_case (text : string) :
  extract_lab_tests (smap ascii_upper text) = extract_lab_tests text /\
  extract_lab_tests (smap to_lower text) = extract_lab_tests text.
Proof.
  split; apply extract_lab_tests_case;
    intros [[] [] [] [] [] [] [] []]; vm_compute; congruence.
Qed.

Lemma extraction_ignores_case_witness :
  extract_lab_tests "HB ESTIMATION: 10.5 G/DL"
  = extract_lab_tests "Hb Estimation: 10.5 g/dL" /\
  extract_lab_tests "hb estimation: 10.5 g/dl"
  = extract_lab_tests "Hb Estimation: 10.5 g/dL".
Proof.
  exact (extraction_ignores_case "Hb Estimation: 10.5 g/dL").
Defined.

(** ** Values come from the text *)

Section Within.
Context {A : Type}.
Variable ic : bool.

(** Every group a successful run records is a piece of the text the run
    consumed. *)
Lemma rmatch_within (r : regex) :
  forall (s : string) (caps : captures)
         (k : string -> captures -> option A) (x : A),
    rmatch ic r s caps k = Some x ->
    exists t s' new,
      s = t ++ s' /\ k s' (new ++ caps)%list = Some x /\
      forall n u, In (n, u) new -> exists a b, t = a ++ u ++ b.
Proof.
  induction r as [|cs|cs|cs|cs|r1 IH1 r2 IH2|r1 IH1 r2 IH2|n r1 IH1];
    intros s caps k x H; simpl in H.
  - exists EmptyString, s, []. simpl. repeat split; auto. contradiction.
  - destruct s as [|c s]; [discriminate|].
    destruct (cs_mem ic cs c); [|discriminate].
    exists (String c EmptyString), s, []. simpl. repeat split; auto. contradiction.
  - apply star_match_sound in H as (t & s' & -> & _ & Hk).
    exists t, s', []. simpl. repeat split; auto. contradiction.
  - destruct s as [|c s]; [discriminate|].
    destruct (cs_mem ic cs c); [|discriminate].
    apply star_match_sound in H as (t & s' & -> & _ & Hk).
    exists (String c t), s', []. simpl. repeat split; auto. contradiction.
  - assert (Skip : k s caps = Some x ->
                exists t s' new,
                  s = t ++ s' /\ k s' (new ++ caps)%list = Some x /\
                  forall n u, In (n, u) new -> exists a b, t = a ++ u ++ b).
    { intros Hk. exists EmptyString, s, []. simpl. repeat split; auto. contradiction. }
    destruct s as [|c s]; [exact (Skip H)|].
    destruct (cs_mem ic cs c); [|exact (Skip H)].
    destruct (k s caps) as [y|] eqn:E; [|exact (Skip H)].
    injection H as <-.
    exists (String c EmptyString), s, []. simpl. repeat split; auto. contradiction.
  - apply IH1 in H as (t1 & s1 & new1 & -> & H & W1).
    apply IH2 in H as (t2 & s2 & new2 & -> & H & W2).
    exists (t1 ++ t2), s2, (new2 ++ new1)%list.
    rewrite append_assoc, <- app_assoc. repeat split; auto.
    intros n u Hin. apply in_app_or in Hin as [Hin|Hin].
    + destruct (W2 _ _ Hin) as (a & b & ->).
      exists (t1 ++ a), b. rewrite !append_assoc. reflexivity.
    + destruct (W1 _ _ Hin) as (a & b & ->).
      exists a, (b ++ t2). rewrite !append_assoc. reflexivity.
  - destruct (rmatch ic r1 s caps k) as [y|] eqn:E.
    + injection H as <-. apply IH1 in E. exact E.
    + apply IH2 in H. exact H.
  - apply IH1 in H as (t & s' & new & -> & H & W).
    rewrite consumed_append in H.
    exists t, s', ((n, t) :: new). repeat split; auto.
    intros m u [Hin|Hin]; [|eauto].
    injection Hin as <- <-. exists EmptyString, EmptyString.
    simpl. rewrite append_nil_r. reflexivity.
Qed.
End Within.

Lemma lookup_cap_In (n : nat) (caps : captures) (u : string) :
  lookup_cap n caps = Some u -> In (n, u) caps.
Proof.
  induction caps as [|[i t] caps IH]; simpl; [discriminate|].
  destruct (Nat.eqb i n) eqn:E.
  - intros H. injection H as <-. apply Nat.eqb_eq in E. subst. left. reflexivity.
  - intros H. right. exact (IH H).
Qed.

Lemma drop_suffix (j : nat) (s : string) : exists pre, s = pre ++ drop j s.
Proof.
  revert s. induction j as [|j IH]; intros s; simpl.
  - exists EmptyString. reflexivity.
  - destruct s as [|c s]; [exists EmptyString; reflexivity|].
    destruct (IH s) as [pre E]. exists (String c pre). simpl. rewrite <- E. reflexivity.
Qed.

Lemma search_from_within (p : pattern) (text : string) (m : match_obj)
      (n : nat) (u : string) :
  search_from true p 0 text = Some m ->
  lookup_cap n (m_caps m) = Some u ->
  exists pre post, text = pre ++ u ++ post.
Proof.
  intros S Hu. apply search_from_some in S as (i & _ & Hm & _).
  unfold match_here in Hm.
  apply rmatch_within in Hm as (t & s' & new & E & Hm & W).
  injection Hm as <-. cbn [m_caps] in Hu. rewrite app_nil_r in Hu.
  apply lookup_cap_In in Hu. destruct (W _ _ Hu) as (a & b & ->).
  destruct (drop_suffix i text) as [pre Hpre]. rewrite E in Hpre.
  exists (pre ++ a), (b ++ s'). rewrite Hpre, !append_assoc. reflexivity.
Qed.

(** X10.  Every value [extract_lab_tests] reports stands in the text as it
    is reported: the text is the value with something before and something
    after it. *)
Theorem values_occur_in_text (text : string) :
  exists results,
    extract_lab_tests text = Ok results /\
    forall record, In record results ->
      exists v pre post,
        test_value record = Some v /\ text = pre ++ v ++ post.
Proof.
  rewrite extract_lab_tests_eq. eexists. split; [reflexivity|].
  intros record Hin.
  apply (records_origin _ _ catalog_ok) in Hin
    as (test & name & pat & unit & range & p & m & Ht & Hok & Hs & ->).
  destruct (proj2 (extract_one_ok _ _ _ _ _ _ text Hok) m Hs) as (v & Hv & _).
  destruct (search_from_within _ _ _ _ _ Hs Hv) as (pre & post & E).
  exists v, pre, post. split; [exact Hv|exact E].
Qed.

Lemma values_occur_in_text_witness :
  exists results,
    extract_lab_tests "PCV (PACKED CELL VOLUME) = 40 %" = Ok results /\
    forall record, In record results ->
      exists v pre post,
        test_value record = Some v /\
        "PCV (PACKED CELL VOLUME) = 40 %" = pre ++ v ++ post.
Proof.
  exact (values_occur_in_text "PCV (PACKED CELL VOLUME) = 40 %").
Defined.

(** ** Entries that leave keys out *)

Lemma extract_one_two_groups (test : dict) (pat : string) (p : pattern)
      (text : string) (m : match_obj) :
  dict_lookup test "pattern" = Some pat -> re_parse pat = Some p ->
  pat_groups p = 2%nat ->
  always_captures 1 (pat_regex p) = true ->
  always_captures 2 (pat_regex p) = true ->
  search_from true p 0 text = Some m ->
  exists v u,
    lookup_cap 1 (m_caps m) = Some v /\ lookup_cap 2 (m_caps m) = Some u /\
    extract_one test text =
    (out_of_range <- is_value_out_of_range (Some v)
                       (dict_get test "reference_range" (Some "")) ;;
     name <- getitem test "name" ;;
     Ok (Some {| test_name := name;
                 test_value := Some v;
                 bio_reference_range := dict_get test "reference_range" (Some "");
                 test_unit := dict_get test "unit" (Some u);
                 lab_test_out_of_range := out_of_range |})).
Proof.
  intros Hp Hparse Hg H1 H2 S.
  pose proof S as Hm. apply search_from_some in Hm as (i & _ & Hm & _).
  apply match_here_some in Hm as (_ & _ & Hng & _ & Hcap).
  destruct (Hcap 1%nat H1) as [v Hv]. destruct (Hcap 2%nat H2) as [u Hu].
  exists v, u. split; [exact Hv|]. split; [exact Hu|].
  unfold extract_one, getitem at 1, re_search.
  rewrite Hp; cbn [bind]. rewrite Hparse; cbn [bind]. rewrite S.
  unfold group, groups_len. rewrite Hng, Hg.
  cbn [Nat.leb Nat.ltb bind]. rewrite Hv, Hu. reflexivity.
Qed.

(** X11.  For an entry whose pattern has two groups that take part in every
    match, found in the text: without a [name] key the turn of the loop
    raises [KeyError]; with one it gives a record whose unit is the entry's
    [unit] when there is one and otherwise the text captured by group 2, and,
    when the entry has no [reference_range], whose range is the empty string
    and whose flag is [false]. *)
Theorem extract_one_missing_keys (test : dict) (pat : string) (p : pattern)
        (text : string) (m : match_obj) :
  dict_lookup test "pattern" = Some pat -> re_parse pat = Some p ->
  pat_groups p = 2%nat ->
  always_captures 1 (pat_regex p) = true ->
  always_captures 2 (pat_regex p) = true ->
  search_from true p 0 text = Some m ->
  exists v u,
    lookup_cap 1 (m_caps m) = Some v /\ lookup_cap 2 (m_caps m) = Some u /\
    (dict_lookup test "name" = None -> extract_one test text = Raise KeyError) /\
    (forall name,
        dict_lookup test "name" = Some name ->
        exists record,
          extract_one test text = Ok (Some record) /\
          test_name record = name /\ test_value record = Some v /\
          (forall unit, dict_lookup test "unit" = Some unit ->
                        test_unit record = Some unit) /\
          (dict_lookup test "unit" = None -> test_unit record = Some u) /\
          (dict_lookup test "reference_range" = None ->
           bio_reference_range record = Some "" /\
           lab_test_out_of_range record = false)).
Proof.
  intros Hp Hparse Hg H1 H2 S.
  destruct (extract_one_two_groups _ _ _ _ _ Hp Hparse Hg H1 H2 S)
    as (v & u & Hv & Hu & E).
  exists v, u. split; [exact Hv|]. split; [exact Hu|].
  assert (R : exists r, dict_get test "reference_range" (Some "") = Some r).
  { unfold dict_get. destruct (dict_lookup test "reference_range"); eauto. }
  destruct R as [r R]. rewrite R in E.
  rewrite is_value_out_of_range_eq in E. cbn [bind] in E.
  unfold getitem in E. split.
  - intros Hn. rewrite Hn in E. exact E.
  - intros name Hn. rewrite Hn in E. cbn [bind] in E.
    eexists. split; [exact E|]. cbn. repeat split.
    + intros unit Hunit. unfold dict_get. rewrite Hunit. reflexivity.
    + intros Hunit. unfold dict_get. rewrite Hunit. reflexivity.
    + unfold dict_get in R. rewrite H in R. symmetry. exact R.
    + unfold dict_get in R. rewrite H in R. injection R as <-. reflexivity.
Qed.

Lemma extract_one_missing_keys_witness :
  exists record,
    extract_one sample_entry "Glucose: 90 MG/DL" = Ok (Some record) /\
    test_name record = "GLUCOSE" /\
    test_unit record = Some "MG/DL" /\
    bio_reference_range record = Some "" /\
    lab_test_out_of_range record = false.
Proof.
  edestruct extract_one_missing_keys
    with (test := sample_entry) (text := "Glucose: 90 MG/DL")
    as (v & u & _ & Hu & _ & H);
    [reflexivity|vm_compute; reflexivity|reflexivity|reflexivity|reflexivity
    |vm_compute; reflexivity|].
  destruct (H "GLUCOSE" eq_refl) as (record & E & Hn & _ & _ & Hunit & Hr).
  exists record. split; [exact E|]. split; [exact Hn|].
  vm_compute in Hu. injection Hu as <-.
  split; [exact (Hunit eq_refl)|]. exact (Hr eq_refl).
Defined.

(** ** The two inversions of the preprocessing *)

